(** * Election analysis: the commission tree [IkInfo]

    A shallow embedding of the class [IkInfo] of [ik_info.py] and of its
    copy in [process_tik.py].  A commission node carries a name, six integer
    counters and an optional insertion-ordered dictionary of dependent
    commissions.

    - Python integers are unbounded: the counters are [Z].
    - An [OrderedDict] is an association list; assignment to a key keeps
      the keys unique and the insertion order.
    - A node owns its dependents (the commissions form a tree), so the
      state of a node contains the states of its dependents.  A method that
      assigns to attributes of [self] returns the new state of the node; a
      method that calls methods of the dependents threads their states
      through the calls and returns the node rebuilt from them.
    - A method that may raise returns a [result], the exception on the
      left.
    - A Python [float] is a binary64 number: the percentages are computed
      with the standard library's executable IEEE-754 operations. *)

From Stdlib Require Import ZArith List String Ascii Bool Lia DecimalString.
From Stdlib Require Import SpecFloat QArith Qabs Qpower Permutation.
Import ListNotations.
Open Scope string_scope.
Open Scope Z_scope.

(** ** Exceptions *)

Inductive exn : Type :=
| AssertionError (msg : string)
| ZeroDivisionError (msg : string)
| OverflowError (msg : string)
| TypeError (msg : string)
| AttributeError (msg : string).

Definition result (A : Type) : Type := (exn + A)%type.

Definition exn_msg (e : exn) : string :=
  match e with
  | AssertionError m | ZeroDivisionError m | OverflowError m
  | TypeError m | AttributeError m => m
  end.

(** ** The object *)

#[local] Unset Elimination Schemes.
Inductive IkInfo : Type := MkIkInfo {
  name : string;
  dependent_iks : option (list (string * IkInfo));
  total_voters : Z;
  given_ballots : Z;
  found_ballots : Z;
  spoiled_ballots : Z;
  yes_votes : Z;
  no_votes : Z
}.
#[local] Set Elimination Schemes.

(** Attribute names, as used by [getattr] and by the two tables. *)
Inductive field : Type :=
| f_total_voters | f_given_ballots | f_found_ballots
| f_spoiled_ballots | f_yes_votes | f_no_votes.

Definition field_eqb (a b : field) : bool :=
  match a, b with
  | f_total_voters, f_total_voters | f_given_ballots, f_given_ballots
  | f_found_ballots, f_found_ballots | f_spoiled_ballots, f_spoiled_ballots
  | f_yes_votes, f_yes_votes | f_no_votes, f_no_votes => true
  | _, _ => false
  end.

Definition getattr (ik : IkInfo) (f : field) : Z :=
  match f with
  | f_total_voters => total_voters ik
  | f_given_ballots => given_ballots ik
  | f_found_ballots => found_ballots ik
  | f_spoiled_ballots => spoiled_ballots ik
  | f_yes_votes => yes_votes ik
  | f_no_votes => no_votes ik
  end.

Definition set_dependent_iks (self : IkInfo)
    (d : option (list (string * IkInfo))) : IkInfo :=
  MkIkInfo (name self) d (total_voters self) (given_ballots self)
    (found_ballots self) (spoiled_ballots self) (yes_votes self)
    (no_votes self).

(** ** OrderedDict *)

Section OrderedDict.
Context {V : Type}.

Definition keys (d : list (string * V)) : list string := map fst d.
Definition values (d : list (string * V)) : list V := map snd d.

(** [d[k] = v]: an existing key keeps its position, a new one goes last. *)
Fixpoint setitem (d : list (string * V)) (k : string) (v : V)
  : list (string * V) :=
  match d with
  | [] => [(k, v)]
  | (k', v') :: rest =>
      if String.eqb k' k then (k, v) :: rest
      else (k', v') :: setitem rest k v
  end.

Fixpoint getitem (d : list (string * V)) (k : string) : option V :=
  match d with
  | [] => None
  | (k', v') :: rest => if String.eqb k' k then Some v' else getitem rest k
  end.

Definition contains (d : list (string * V)) (k : string) : bool :=
  match getitem d k with Some _ => true | None => false end.

(** Truth value of an attribute that is [None] or a dictionary. *)
Definition truthy (d : option (list (string * V))) : bool :=
  match d with
  | None => false
  | Some [] => false
  | Some (_ :: _) => true
  end.
End OrderedDict.

(** [for ik in d.values(): ik.m()] for a method [m] that may raise and may
    change the object it is called on: the loop stops at the first
    exception; the objects visited so far are left in the state the calls
    gave them. *)
Section ForEachValue.
Context {V : Type} (call : V -> result unit * V).

Fixpoint for_each_value (d : list (string * V))
  : result unit * list (string * V) :=
  match d with
  | [] => (inr tt, [])
  | (k, v) :: rest =>
      match call v with
      | (inl e, v') => (inl e, (k, v') :: rest)
      | (inr _, v') =>
          let (r, rest') := for_each_value rest in (r, (k, v') :: rest')
      end
  end.
End ForEachValue.

(** [for ik in d.values(): yield from g(ik)] *)
Section YieldFromValues.
Context {V A : Type} (gen : V -> list A).

Fixpoint yield_from_values (d : list (string * V)) : list A :=
  match d with
  | [] => []
  | (_, v) :: rest => gen v ++ yield_from_values rest
  end.
End YieldFromValues.

(** ** Formatting *)

Definition str_of_int (z : Z) : string := NilZero.string_of_int (Z.to_int z).

Definition nl : string := String (ascii_of_nat 10) EmptyString.

(** [format(s, ">w")]: the text, after the blanks that bring it to [w]
    characters. *)
Definition rjust (width : nat) (s : string) : string :=
  String.concat "" (repeat " " (width - String.length s)) ++ s.

(** The table [field_description] of both files. *)
Definition field_description : list (field * string) :=
  [ (f_total_voters, "Amount of potential voters");
    (f_given_ballots, "Amount of given ballot papers");
    (f_found_ballots, "Amount of ballots in the ballot boxes");
    (f_spoiled_ballots, "Amount of spoiled ballots");
    (f_yes_votes, "YES");
    (f_no_votes, "NO") ].

(** The table [line_as_ui_info_field] of [process_tik.py]. *)
Definition line_as_ui_info_field : list (string * field) :=
  [ ("1", f_total_voters);
    ("2", f_given_ballots);
    ("3", f_found_ballots);
    ("4", f_spoiled_ballots);
    ("5", f_yes_votes);
    ("6", f_no_votes) ].

Fixpoint describe (tbl : list (field * string)) (f : field) : string :=
  match tbl with
  | [] => ""
  | (f', s) :: rest => if field_eqb f' f then s else describe rest f
  end.

Definition msg_found_ballots (self : IkInfo) : string :=
  "IK " ++ name self ++ "." ++ nl ++ " Yes votes ("
    ++ str_of_int (yes_votes self) ++ ") + No votes ("
    ++ str_of_int (no_votes self) ++ ") + spoiled ballots ("
    ++ str_of_int (spoiled_ballots self) ++ ") != found_ballots "
    ++ str_of_int (found_ballots self).

Definition msg_given_ballots (self : IkInfo) : string :=
  "IK " ++ name self ++ ". Given ballots ("
    ++ str_of_int (given_ballots self) ++ ") is less than found ballots ("
    ++ str_of_int (found_ballots self) ++ ")".

Definition msg_total_voters (self : IkInfo) : string :=
  "IK " ++ name self ++ ". Total voters ("
    ++ str_of_int (total_voters self) ++ ") is less than given ballots ("
    ++ str_of_int (given_ballots self) ++ ")".

Definition msg_field_sum (self : IkInfo) (f : field) (total_calc : Z)
  : string :=
  "IK " ++ name self ++ ". '" ++ describe field_description f
    ++ "': total=" ++ str_of_int (getattr self f)
    ++ ", but sum=" ++ str_of_int total_calc.

(** ** Python floats

    A Python [float] is an IEEE-754 binary64 number; the operations are
    those of the standard library's executable specification, rounding to
    nearest, ties to even. *)

Definition prec : Z := 53.
Definition emax : Z := 1024.

Definition float : Type := spec_float.

(** The literal [100.0]. *)
Definition f100 : float := S754_finite false 7036874417766400 (-46).

(** Conversion of the [int] operand of a mixed operation: correctly
    rounded, [OverflowError] beyond the range of finite doubles. *)
Definition float_of_int (z : Z) : result float :=
  match binary_normalize prec emax z 0 false with
  | S754_infinity _ => inl (OverflowError "int too large to convert to float")
  | x => inr x
  end.

Definition is_zero (x : float) : bool :=
  match x with S754_zero _ => true | _ => false end.

(** [a * n] for a float [a] and an int [n]. *)
Definition float_mul_int (a : float) (n : Z) : result float :=
  match float_of_int n with
  | inl e => inl e
  | inr b => inr (SFmul prec emax a b)
  end.

(** [a / n] for a float [a] and an int [n]. *)
Definition float_div_int (a : float) (n : Z) : result float :=
  match float_of_int n with
  | inl e => inl e
  | inr b =>
      if is_zero b then inl (ZeroDivisionError "float division by zero")
      else inr (SFdiv prec emax a b)
  end.

(** [100.0 * num / den] *)
Definition percent (num den : Z) : result float :=
  match float_mul_int f100 num with
  | inl e => inl e
  | inr p => float_div_int p den
  end.

(** ** [ik_info.py] *)

Module ik_info.

(** [IkInfo(name, has_dependent=False)] *)
Definition init (nm : string) (has_dependent : bool) : IkInfo :=
  MkIkInfo nm (if has_dependent then Some [] else None) 0 0 0 0 0 0.

Definition get_turnout_percent (self : IkInfo) : result float :=
  percent (given_ballots self) (total_voters self).

Definition get_yes_percent (self : IkInfo) : result float :=
  percent (yes_votes self) (found_ballots self).

Definition get_no_percent (self : IkInfo) : result float :=
  percent (no_votes self) (found_ballots self).

Definition get_spoiled_percent (self : IkInfo) : result float :=
  percent (spoiled_ballots self) (found_ballots self).

Definition get_number_of_iks (self : IkInfo) : Z :=
  match dependent_iks self with
  | Some ((_ :: _) as d) => Z.of_nat (List.length d)
  | _ => 0
  end.

Fixpoint get_iks (recursive : bool) (self : IkInfo) : list IkInfo :=
  match dependent_iks self with
  | Some ((_ :: _) as d) =>
      yield_from_values
        (fun ik => if recursive then get_iks true ik else [ik]) d
  | _ => [self]
  end.

(** [ik.get_ik_by_name(ik_name)] where [ik] is a key of the dictionary,
    a [str]: the attribute does not exist. *)
Definition str_get_ik_by_name (ik ik_name : string)
  : result (option IkInfo) :=
  inl (AttributeError "'str' object has no attribute 'get_ik_by_name'").

(** The loop [for ik in self.dependent_iks] runs over the keys. *)
Fixpoint search_keys (ks : list string) (ik_name : string)
  : result (option IkInfo) :=
  match ks with
  | [] => inr None
  | ik :: rest =>
      match str_get_ik_by_name ik ik_name with
      | inl e => inl e
      | inr (Some t) => inr (Some t)
      | inr None => search_keys rest ik_name
      end
  end.

Definition get_ik_by_name (self : IkInfo) (ik_name : string)
  : result (option IkInfo) :=
  if String.eqb (name self) ik_name then inr (Some self)
  else
    match dependent_iks self with
    | None => inl (TypeError "argument of type 'NoneType' is not iterable")
    | Some d =>
        if contains d ik_name then inr (getitem d ik_name)
        else search_keys (keys d) ik_name
    end.

Definition add_ik_info (self ik_info : IkInfo) : IkInfo :=
  let d := match dependent_iks self with
           | Some ((_ :: _) as d) => d
           | _ => []
           end in
  MkIkInfo (name self) (Some (setitem d (name ik_info) ik_info))
    (total_voters self + total_voters ik_info)
    (given_ballots self + given_ballots ik_info)
    (found_ballots self + found_ballots ik_info)
    (spoiled_ballots self + spoiled_ballots ik_info)
    (yes_votes self + yes_votes ik_info)
    (no_votes self + no_votes ik_info).

Definition validate_found_ballots (self : IkInfo) : result unit :=
  let found := yes_votes self + no_votes self + spoiled_ballots self in
  if negb (found_ballots self =? found)
  then inl (AssertionError (msg_found_ballots self))
  else inr tt.

Definition validate_given_ballots (self : IkInfo) : result unit :=
  if given_ballots self <? found_ballots self
  then inl (AssertionError (msg_given_ballots self))
  else inr tt.

Definition validate_total_voters (self : IkInfo) : result unit :=
  if total_voters self <? given_ballots self
  then inl (AssertionError (msg_total_voters self))
  else inr tt.

(** The second loop of [__validate_dependent_iks_numbers]. *)
Fixpoint check_fields (fields : list field) (self : IkInfo)
    (d : list (string * IkInfo)) : result unit :=
  match fields with
  | [] => inr tt
  | f :: rest =>
      let total_calc :=
        fold_left (fun acc ik => acc + getattr ik f) (values d) 0 in
      let total := getattr self f in
      if negb (total =? total_calc)
      then inl (AssertionError (msg_field_sum self f total_calc))
      else check_fields rest self d
  end.

Fixpoint validate (self : IkInfo) : result unit * IkInfo :=
  match validate_found_ballots self with
  | inl e => (inl e, self)
  | inr _ =>
  match validate_given_ballots self with
  | inl e => (inl e, self)
  | inr _ =>
  match validate_total_voters self with
  | inl e => (inl e, self)
  | inr _ =>
  (* __validate_dependent_iks_numbers *)
  match dependent_iks self with
  | Some ((_ :: _) as d) =>
      match for_each_value validate d with
      | (inl e, d') => (inl e, set_dependent_iks self (Some d'))
      | (inr _, d') =>
          let self' := set_dependent_iks self (Some d') in
          (check_fields (map fst field_description) self' d', self')
      end
  | _ => (inr tt, self)
  end
  end end end.

(** [to_string], over the presentation of a float under the formats
    [">7.2%"] and [">6.2%"], given its width. *)
Section ToString.
Variable format_percent : nat -> float -> string.

(** [float(n) / d] *)
Definition float_ratio (n d : Z) : result float :=
  match float_of_int n with
  | inl e => inl e
  | inr x => float_div_int x d
  end.

Definition to_string (self : IkInfo) : result string :=
  match float_ratio (given_ballots self) (total_voters self) with
  | inl e => inl e
  | inr turnout =>
  match float_ratio (yes_votes self) (found_ballots self) with
  | inl e => inl e
  | inr yes_part =>
  match float_ratio (no_votes self) (found_ballots self) with
  | inl e => inl e
  | inr no_part =>
      inr (name self
           ++ ": total=" ++ rjust 4 (str_of_int (total_voters self))
           ++ ", given=" ++ rjust 4 (str_of_int (given_ballots self))
           ++ ", found=" ++ rjust 4 (str_of_int (found_ballots self))
           ++ ", spoiled=" ++ rjust 3 (str_of_int (spoiled_ballots self))
           ++ ", turnout=" ++ format_percent 7 turnout
           ++ ", YES=" ++ rjust 4 (str_of_int (yes_votes self))
           ++ " (" ++ format_percent 6 yes_part
           ++ "), NO=" ++ rjust 4 (str_of_int (no_votes self))
           ++ " (" ++ format_percent 6 no_part ++ ")")
  end end end.
End ToString.

End ik_info.

(** ** [process_tik.py] *)

Module process_tik.

(** [IkInfo(name)] *)
Definition init (nm : string) : IkInfo :=
  MkIkInfo nm None 0 0 0 0 0 0.

Definition get_turnout_percent (self : IkInfo) : result float :=
  percent (given_ballots self) (total_voters self).

Definition get_yes_percent (self : IkInfo) : result float :=
  percent (yes_votes self) (found_ballots self).

Definition get_no_percent (self : IkInfo) : result float :=
  percent (no_votes self) (found_ballots self).

Definition get_spoiled_percent (self : IkInfo) : result float :=
  percent (spoiled_ballots self) (found_ballots self).

Definition get_number_of_iks (self : IkInfo) : Z :=
  match dependent_iks self with
  | Some ((_ :: _) as d) => Z.of_nat (List.length d)
  | _ => 0
  end.

Fixpoint get_iks (recursive : bool) (self : IkInfo) : list IkInfo :=
  match dependent_iks self with
  | Some ((_ :: _) as d) =>
      yield_from_values
        (fun ik => if recursive then get_iks true ik else [ik]) d
  | _ => [self]
  end.

(** [ik.get_ik_by_name(ik_name)] where [ik] is a key of the dictionary,
    a [str]: the attribute does not exist. *)
Definition str_get_ik_by_name (ik ik_name : string)
  : result (option IkInfo) :=
  inl (AttributeError "'str' object has no attribute 'get_ik_by_name'").

(** The loop [for ik in self.dependent_iks] runs over the keys. *)
Fixpoint search_keys (ks : list string) (ik_name : string)
  : result (option IkInfo) :=
  match ks with
  | [] => inr None
  | ik :: rest =>
      match str_get_ik_by_name ik ik_name with
      | inl e => inl e
      | inr (Some t) => inr (Some t)
      | inr None => search_keys rest ik_name
      end
  end.

Definition get_ik_by_name (self : IkInfo) (ik_name : string)
  : result (option IkInfo) :=
  if String.eqb (name self) ik_name then inr (Some self)
  else
    match dependent_iks self with
    | None => inl (TypeError "argument of type 'NoneType' is not iterable")
    | Some d =>
        if contains d ik_name then inr (getitem d ik_name)
        else search_keys (keys d) ik_name
    end.

Definition add_ik_info (self ik_info : IkInfo) : IkInfo :=
  let d := match dependent_iks self with
           | Some ((_ :: _) as d) => d
           | _ => []
           end in
  MkIkInfo (name self) (Some (setitem d (name ik_info) ik_info))
    (total_voters self + total_voters ik_info)
    (given_ballots self + given_ballots ik_info)
    (found_ballots self + found_ballots ik_info)
    (spoiled_ballots self + spoiled_ballots ik_info)
    (yes_votes self + yes_votes ik_info)
    (no_votes self + no_votes ik_info).

Definition validate_found_ballots (self : IkInfo) : result unit :=
  let found := yes_votes self + no_votes self + spoiled_ballots self in
  if negb (found_ballots self =? found)
  then inl (AssertionError (msg_found_ballots self))
  else inr tt.

Definition validate_given_ballots (self : IkInfo) : result unit :=
  if given_ballots self <? found_ballots self
  then inl (AssertionError (msg_given_ballots self))
  else inr tt.

Definition validate_total_voters (self : IkInfo) : result unit :=
  if total_voters self <? given_ballots self
  then inl (AssertionError (msg_total_voters self))
  else inr tt.

(** The second loop of [__validate_dependent_iks_numbers]. *)
Fixpoint check_fields (fields : list field) (self : IkInfo)
    (d : list (string * IkInfo)) : result unit :=
  match fields with
  | [] => inr tt
  | f :: rest =>
      let total_calc :=
        fold_left (fun acc ik => acc + getattr ik f) (values d) 0 in
      let total := getattr self f in
      if negb (total =? total_calc)
      then inl (AssertionError (msg_field_sum self f total_calc))
      else check_fields rest self d
  end.

(** [validate(self, data_file=None)]; the recursive calls pass no file. *)
Fixpoint validate (data_file : option string) (self : IkInfo)
  : result unit * IkInfo :=
  match validate_found_ballots self with
  | inl e => (inl e, self)
  | inr _ =>
  match validate_given_ballots self with
  | inl e => (inl e, self)
  | inr _ =>
  match validate_total_voters self with
  | inl e => (inl e, self)
  | inr _ =>
  (* __validate_dependent_iks_numbers *)
  match dependent_iks self with
  | Some ((_ :: _) as d) =>
      match for_each_value (validate None) d with
      | (inl e, d') => (inl e, set_dependent_iks self (Some d'))
      | (inr _, d') =>
          let self' := set_dependent_iks self (Some d') in
          (check_fields (map snd line_as_ui_info_field) self' d', self')
      end
  | _ => (inr tt, self)
  end
  end end end.

End process_tik.

(** ** The tree of commissions *)

Definition children (n : IkInfo) : list IkInfo :=
  match dependent_iks n with
  | Some d => values d
  | None => []
  end.

Definition is_leaf (n : IkInfo) : bool :=
  match children n with
  | [] => true
  | _ :: _ => false
  end.

(** All nodes of a tree, depth first, a node before its children, the
    children in insertion order. *)
Fixpoint nodes (t : IkInfo) : list IkInfo :=
  t :: match dependent_iks t with
       | Some d => yield_from_values nodes d
       | None => []
       end.

Fixpoint count_leaves (t : IkInfo) : nat :=
  match dependent_iks t with
  | Some ((_ :: _) as d) =>
      list_sum (yield_from_values (fun c => [count_leaves c]) d)
  | _ => 1%nat
  end.

Definition counters (n : IkInfo) : list Z :=
  [ total_voters n; given_ballots n; found_ballots n;
    spoiled_ballots n; yes_votes n; no_votes n ].

Definition sum_over (f : field) (l : list IkInfo) : Z :=
  fold_right Z.add 0 (map (fun ik => getattr ik f) l).

(** The invariants of a validated tree. *)
Definition invariant1 (n : IkInfo) : Prop :=
  found_ballots n = yes_votes n + no_votes n + spoiled_ballots n.

Definition invariant2 (n : IkInfo) : Prop :=
  given_ballots n >= found_ballots n.

Definition invariant3 (n : IkInfo) : Prop :=
  total_voters n >= given_ballots n.

Definition invariant4 (n : IkInfo) : Prop :=
  children n <> [] -> forall f, getattr n f = sum_over f (children n).

Definition consistent (t : IkInfo) : Prop :=
  forall n, In n (nodes t) ->
    invariant1 n /\ invariant2 n /\ invariant3 n /\ invariant4 n.

(** [s.startswith(sub)] and [sub in s] *)
Fixpoint starts_with (sub s : string) : bool :=
  match sub, s with
  | EmptyString, _ => true
  | String a sub', String b s' => Ascii.eqb a b && starts_with sub' s'
  | String _ _, EmptyString => false
  end.

Fixpoint mentions (sub s : string) {struct s} : bool :=
  starts_with sub s
  || match s with
     | EmptyString => false
     | String _ s' => mentions sub s'
     end.

(** The message holds the name of the node and the decimal form of each of
    the values. *)
Definition shows (msg : string) (n : IkInfo) (vals : list Z) : Prop :=
  mentions (name n) msg = true
  /\ Forall (fun v => mentions (str_of_int v) msg = true) vals.

(** What an exception of [validate] says about a node: which invariant the
    node violates, and a message that holds the name of the node and the
    values in conflict. *)
Inductive reports (n : IkInfo) : exn -> Prop :=
| reports_found :
    ~ invariant1 n ->
    shows (msg_found_ballots n) n
      [yes_votes n; no_votes n; spoiled_ballots n; found_ballots n] ->
    reports n (AssertionError (msg_found_ballots n))
| reports_given :
    ~ invariant2 n ->
    shows (msg_given_ballots n) n [given_ballots n; found_ballots n] ->
    reports n (AssertionError (msg_given_ballots n))
| reports_total :
    ~ invariant3 n ->
    shows (msg_total_voters n) n [total_voters n; given_ballots n] ->
    reports n (AssertionError (msg_total_voters n))
| reports_sum (f : field) :
    children n <> [] ->
    getattr n f <> sum_over f (children n) ->
    shows (msg_field_sum n f (sum_over f (children n))) n
      [getattr n f; sum_over f (children n)] ->
    mentions (describe field_description f)
      (msg_field_sum n f (sum_over f (children n))) = true ->
    reports n (AssertionError (msg_field_sum n f (sum_over f (children n)))).

(** The three checks [validate] makes on the node itself. *)
Definition own_checks (self : IkInfo) : result unit :=
  match ik_info.validate_found_ballots self with
  | inl e => inl e
  | inr _ =>
      match ik_info.validate_given_ballots self with
      | inl e => inl e
      | inr _ => ik_info.validate_total_voters self
      end
  end.

(** The first exception of a sequence of calls, if any. *)
Fixpoint first_error (rs : list (result unit)) : result unit :=
  match rs with
  | [] => inr tt
  | inl e :: _ => inl e
  | inr _ :: rest => first_error rest
  end.

(** A parent and its only child, both with [found_ballots = 10] against
    [yes + no + spoiled = 9]. *)
Definition both_wrong_child : IkInfo :=
  MkIkInfo "C" None 10 10 10 1 5 3.

Definition both_wrong_parent : IkInfo :=
  MkIkInfo "P" (Some [("C", both_wrong_child)]) 10 10 10 1 5 3.

(** A parent whose own invariants 1-3 hold, over the same child; its
    [yes_votes] differs from the child's. *)
Definition child_wrong_only : IkInfo :=
  MkIkInfo "Q" (Some [("C", both_wrong_child)]) 10 10 10 1 6 3.

(** A commission whose [total_voters] is one more than its only
    precinct's. *)
Definition sum_wrong_parent : IkInfo :=
  MkIkInfo "S" (Some [("UIK 1", MkIkInfo "UIK 1" None 100 60 60 5 40 15)])
    101 60 60 5 40 15.

(** Three precincts and the commission built from them. *)
Definition uik1 : IkInfo := MkIkInfo "UIK 1" None 100 60 60 5 40 15.
Definition uik2 : IkInfo := MkIkInfo "UIK 2" None 200 150 148 8 100 40.
Definition uik3 : IkInfo := MkIkInfo "UIK 3" None 50 20 20 0 12 8.

Definition tik : IkInfo :=
  fold_left ik_info.add_ik_info [uik1; uik2; uik3] (ik_info.init "TIK" true).

Definition dict_of (p : IkInfo) : list (string * IkInfo) :=
  match dependent_iks p with
  | Some d => d
  | None => []
  end.

Definition entry (c : IkInfo) : string * IkInfo := (name c, c).

(** Two precincts of the same name, and a commission that already holds
    the first. *)
Definition dup1 : IkInfo := MkIkInfo "A" None 5 4 4 1 2 1.
Definition dup2 : IkInfo := MkIkInfo "A" None 7 6 6 1 3 2.

Definition holds_dup1 : IkInfo :=
  ik_info.add_ik_info (ik_info.init "TIK" true) dup1.

(** The first node of the subtree, depth first in insertion order, that
    bears the name. *)
Definition find_by_name (t : IkInfo) (ik_name : string) : option IkInfo :=
  find (fun n => String.eqb (name n) ik_name) (nodes t).

(** A region, one commission, one precinct. *)
Definition precinct : IkInfo := MkIkInfo "B" None 100 60 60 5 40 15.

Definition commission : IkInfo :=
  ik_info.add_ik_info (ik_info.init "A" false) precinct.

Definition region : IkInfo :=
  ik_info.add_ik_info (ik_info.init "R" false) commission.

(** A precinct whose [given_ballots] is far beyond its one voter and
    beyond the integers a float holds exactly. *)
Definition overfull : IkInfo := MkIkInfo "X" None 1 (10 ^ 307) 1 0 1 0.

(** ** Values of floats *)

(** The rational number a float stands for. *)
Definition float_value (x : float) : option Q :=
  match x with
  | S754_zero _ => Some 0%Q
  | S754_finite s m e => Some (inject_Z (cond_Zopp s (Zpos m)) * 2 ^ e)%Q
  | _ => None
  end.

(** The unit in the last place of a finite float. *)
Definition ulp (x : float) : Q :=
  match x with
  | S754_finite _ _ e => (2 ^ e)%Q
  | _ => 0%Q
  end.

(** The call returns a float, and the float is [q]. *)
Definition returns_exactly (r : result float) (q : Q) : Prop :=
  exists v q', r = inr v /\ float_value v = Some q' /\ (q' == q)%Q.

(** The call returns a double in canonical form at most half a unit in the
    last place away from [a / b]. *)
Definition returns_nearest (r : result float) (a b : Z) : Prop :=
  exists v q,
    r = inr v
    /\ valid_binary prec emax v = true
    /\ float_value v = Some q
    /\ (Qabs (q - (a # Z.to_pos b)) <= ulp v * (1 # 2))%Q.

(** Number of binary digits of a mantissa. *)
Definition digits (p : positive) : Z := Zpos (digits2_pos p).

(** Position of the exact value [N / D] with respect to the integer [m]
    and its successor, as a location says it. *)
Definition located (m : Z) (l : location) (N D : Z) : Prop :=
  match l with
  | loc_Exact => N = m * D
  | loc_Inexact Lt => m * D < N /\ 2 * N < (2 * m + 1) * D
  | loc_Inexact Eq => 2 * N = (2 * m + 1) * D
  | loc_Inexact Gt => (2 * m + 1) * D < 2 * N /\ N < (m + 1) * D
  end.

(** The second half of [binary_round_aux]: renormalise after rounding. *)
Definition finish (s : bool) (m e : Z) : float :=
  let '(mrs, e') := shr_fexp prec emax m e loc_Exact in
  match shr_m mrs with
  | Z0 => S754_zero s
  | Zpos m' =>
      if e' <=? emax - prec then S754_finite s m' e' else S754_infinity s
  | Zneg _ => S754_nan
  end.

(** ** Induction on trees *)

Section IkInfo_induction.
Variable P : IkInfo -> Prop.
Hypothesis step :
  forall nm d tv gb fb sb yv nv,
    (forall dd, d = Some dd -> Forall (fun kv => P (snd kv)) dd) ->
    P (MkIkInfo nm d tv gb fb sb yv nv).

Fixpoint IkInfo_ind (t : IkInfo) : P t :=
  match t with
  | MkIkInfo nm d tv gb fb sb yv nv =>
      step nm d tv gb fb sb yv nv
        (match d as d0
               return forall dd, d0 = Some dd ->
                                 Forall (fun kv => P (snd kv)) dd
         with
         | None => fun dd H => match H with end
         | Some l =>
             fun dd H =>
               match H in _ = o
                     return match o with
                            | Some x => Forall (fun kv => P (snd kv)) x
                            | None => True
                            end
               with
               | eq_refl =>
                   (fix go (l : list (string * IkInfo))
                      : Forall (fun kv => P (snd kv)) l :=
                      match l with
                      | [] => Forall_nil _
                      | kv :: rest =>
                          Forall_cons kv (IkInfo_ind (snd kv)) (go rest)
                      end) l
               end
         end)
  end.
End IkInfo_induction.

(** ** The ingestion adapter

    [extract_ik_info] of [process_spb.py] and of [process_tik.py] reads the
    table of one commission through [csv.DictReader].  The reader is the
    data source: the functions below take what it yields, the column names
    and the rows, in place of the file. *)

(** Exceptions of the code around the class. *)
Inductive py_exn : Type :=
| Raised (e : exn)
| KeyError (key : string)
| IndexError (msg : string)
| ValueError (msg : string).

Definition py_result (A : Type) : Type := (py_exn + A)%type.

(** A cell of a row is a string, or [None] for a column the line does not
    reach; a row is a dictionary from column names to cells. *)
Definition cell : Type := option string.
Definition row : Type := list (string * cell).

(** [not c] for a cell. *)
Definition cell_falsy (c : cell) : bool :=
  match c with
  | Some (String _ _) => false
  | _ => true
  end.

(** [line[key]] *)
Definition row_get (line : row) (key : string) : py_result cell :=
  match getitem line key with
  | Some c => inr c
  | None => inl (KeyError key)
  end.

(** [fields[3:-1]] *)
Definition slice_3_to_last (fields : list string) : list string :=
  removelast (skipn 3 fields).

(** [setattr(ik, field, value)] *)
Definition setattr (ik : IkInfo) (f : field) (value : Z) : IkInfo :=
  match f with
  | f_total_voters =>
      MkIkInfo (name ik) (dependent_iks ik) value (given_ballots ik)
        (found_ballots ik) (spoiled_ballots ik) (yes_votes ik) (no_votes ik)
  | f_given_ballots =>
      MkIkInfo (name ik) (dependent_iks ik) (total_voters ik) value
        (found_ballots ik) (spoiled_ballots ik) (yes_votes ik) (no_votes ik)
  | f_found_ballots =>
      MkIkInfo (name ik) (dependent_iks ik) (total_voters ik)
        (given_ballots ik) value (spoiled_ballots ik) (yes_votes ik)
        (no_votes ik)
  | f_spoiled_ballots =>
      MkIkInfo (name ik) (dependent_iks ik) (total_voters ik)
        (given_ballots ik) (found_ballots ik) value (yes_votes ik)
        (no_votes ik)
  | f_yes_votes =>
      MkIkInfo (name ik) (dependent_iks ik) (total_voters ik)
        (given_ballots ik) (found_ballots ik) (spoiled_ballots ik) value
        (no_votes ik)
  | f_no_votes =>
      MkIkInfo (name ik) (dependent_iks ik) (total_voters ik)
        (given_ballots ik) (found_ballots ik) (spoiled_ballots ik)
        (yes_votes ik) value
  end.

(** The column of the declared totals. *)
Definition total_column : string := "Сумма".

(** The steps the two copies of [extract_ik_info] share, over the table
    [table] from line numbers to attribute names and the builtin [int] on
    strings. *)
Section ReadLines.
Variable py_int : string -> py_result Z.
Variable table : list (string * field).

(** [int(c)] for a cell. *)
Definition int_cell (c : cell) : py_result Z :=
  match c with
  | Some s => py_int s
  | None =>
      inl (Raised (TypeError
        "int() argument must be a string, a bytes-like object or a real number, not 'NoneType'"))
  end.

(** [for ik_name, ik_info in d.items(): setattr(ik_info, f, int(line[ik_name]))] *)
Fixpoint set_dependents (line : row) (f : field)
    (d : list (string * IkInfo)) : py_result (list (string * IkInfo)) :=
  match d with
  | [] => inr []
  | (ik_name, ik_info) :: rest =>
      match row_get line ik_name with
      | inl e => inl e
      | inr c =>
          match int_cell c with
          | inl e => inl e
          | inr value =>
              match set_dependents line f rest with
              | inl e => inl e
              | inr rest' => inr ((ik_name, setattr ik_info f value) :: rest')
              end
          end
      end
  end.

(** The body of the loop over the rows. *)
Definition read_line (pos_line_number : string) (this_tik : IkInfo)
    (line : row) : py_result IkInfo :=
  match row_get line pos_line_number with
  | inl e => inl e
  | inr line_number =>
      match line_number with
      | Some (String _ _ as number) =>
          match getitem table number with
          | None => inl (KeyError number)
          | Some field_to_insert =>
              match row_get line total_column with
              | inl e => inl e
              | inr c =>
                  match int_cell c with
                  | inl e => inl e
                  | inr total =>
                      let this_tik := setattr this_tik field_to_insert total in
                      match dependent_iks this_tik with
                      | None =>
                          inl (Raised (AttributeError
                            "'NoneType' object has no attribute 'items'"))
                      | Some d =>
                          match set_dependents line field_to_insert d with
                          | inl e => inl e
                          | inr d' =>
                              inr (set_dependent_iks this_tik (Some d'))
                          end
                      end
                  end
              end
          end
      | _ => inr this_tik
      end
  end.

Fixpoint read_lines (pos_line_number : string) (this_tik : IkInfo)
    (lines : list row) : py_result IkInfo :=
  match lines with
  | [] => inr this_tik
  | line :: rest =>
      match read_line pos_line_number this_tik line with
      | inl e => inl e
      | inr this_tik' => read_lines pos_line_number this_tik' rest
      end
  end.

(** [for uik in uiks: d[uik] = IkInfo(uik)] on an empty dictionary. *)
Definition fresh_dependents (uiks : list string) : list (string * IkInfo) :=
  fold_left (fun d uik => setitem d uik (MkIkInfo uik None 0 0 0 0 0 0))
    uiks [].

(** From the header to the last row, for a node [this_tik] that holds no
    dependents yet. *)
Definition read_table (this_tik : IkInfo) (fieldnames : option (list string))
    (lines : list row) : py_result IkInfo :=
  match fieldnames with
  | None =>
      inl (Raised (TypeError "'NoneType' object is not subscriptable"))
  | Some fields =>
      let uiks := slice_3_to_last fields in
      let this_tik :=
        set_dependent_iks this_tik (Some (fresh_dependents uiks)) in
      match fields with
      | [] => inl (IndexError "list index out of range")
      | pos_line_number :: _ => read_lines pos_line_number this_tik lines
      end
  end.
End ReadLines.

(** ** [process_spb.py] *)

Module process_spb.

Definition line_as_ik_info_field : list (string * field) :=
  [ ("1", f_total_voters);
    ("2", f_given_ballots);
    ("3", f_found_ballots);
    ("4", f_spoiled_ballots);
    ("5", f_yes_votes);
    ("6", f_no_votes) ].

(** [extract_ik_info(tik_name, data_file)], on the column names and rows
    read from [data_file]. *)
Definition extract_ik_info (py_int : string -> py_result Z)
    (tik_name : string) (fieldnames : option (list string))
    (lines : list row) : py_result IkInfo :=
  let this_tik := ik_info.init tik_name true in
  match read_table py_int line_as_ik_info_field this_tik fieldnames lines with
  | inl e => inl e
  | inr this_tik =>
      match ik_info.validate this_tik with
      | (inl e, _) => inl (Raised e)
      | (inr _, this_tik') => inr this_tik'
      end
  end.

End process_spb.

(** ** [process_tik.py]: the adapter *)

Module process_tik_adapter.

(** [IkInfo.extract_ik_info(tik_name, data_file)]; [__init_dict] is the
    assignment of the fresh dictionary in [read_table]. *)
Definition extract_ik_info (py_int : string -> py_result Z)
    (tik_name : string) (data_file : string)
    (fieldnames : option (list string)) (lines : list row)
  : py_result IkInfo :=
  let this_tik := process_tik.init tik_name in
  match read_table py_int line_as_ui_info_field this_tik fieldnames lines with
  | inl e => inl e
  | inr this_tik =>
      match process_tik.validate (Some data_file) this_tik with
      | (inl e, _) => inl (Raised e)
      | (inr _, this_tik') => inr this_tik'
      end
  end.

End process_tik_adapter.

(** The attribute a row is for: its line number looked up in the table;
    none for a row whose line number is empty. *)
Definition row_field (table : list (string * field)) (pos_line_number : string)
    (line : row) : option field :=
  match getitem line pos_line_number with
  | Some (Some (String _ _ as number)) => getitem table number
  | _ => None
  end.

Definition row_is_for (table : list (string * field))
    (pos_line_number : string) (f : field) (line : row) : bool :=
  match row_field table pos_line_number line with
  | Some g => field_eqb g f
  | None => false
  end.

(** The last row for an attribute, if any. *)
Definition last_row_for (table : list (string * field))
    (pos_line_number : string) (f : field) (lines : list row) : option row :=
  find (row_is_for table pos_line_number f) (rev lines).

(** The cell of [line] in [column] reads as the integer [z]. *)
Definition cell_value (py_int : string -> py_result Z) (line : row)
    (column : string) (z : Z) : Prop :=
  exists c, getitem line column = Some c /\ int_cell py_int c = inr z.

(** A row without line number. *)
Definition blank_row (pos_line_number : string) (line : row) : bool :=
  match getitem line pos_line_number with
  | Some c => cell_falsy c
  | None => false
  end.

(** Two dictionaries with the same keys whose nodes differ at most in
    their counters. *)
Definition same_shape (d d' : list (string * IkInfo)) : Prop :=
  Forall2 (fun kv kv' =>
             fst kv = fst kv' /\ name (snd kv) = name (snd kv')
             /\ dependent_iks (snd kv) = dependent_iks (snd kv')) d d'.

(** A fresh leaf stored under its name. *)
Definition leaf_named (kv : string * IkInfo) : Prop :=
  snd kv = MkIkInfo (fst kv) None 0 0 0 0 0 0.

(** A reading of plain decimal literals, as [int] reads them, for the
    examples. *)
Definition decimal (s : string) : py_result Z :=
  match s with
  | EmptyString =>
      inl (ValueError "invalid literal for int() with base 10: ''")
  | _ =>
      match NilZero.int_of_string s with
      | Some i => inr (Z.of_int i)
      | None =>
          inl (ValueError
                 ("invalid literal for int() with base 10: '" ++ s ++ "'"))
      end
  end.

(** The table of the commission [tik]: a header with a trailing empty
    column, a row without line number, and the six rows of counters. *)
Definition tik_header : list string :=
  ["N"; "title"; total_column; "UIK 1"; "UIK 2"; "UIK 3"; ""].

Definition tik_row (number title total c1 c2 c3 : string) : row :=
  [ ("N", Some number); ("title", Some title); (total_column, Some total);
    ("UIK 1", Some c1); ("UIK 2", Some c2); ("UIK 3", Some c3); ("", None) ].

Definition tik_rows : list row :=
  [ tik_row "" "Do you agree?" "" "" "" "";
    tik_row "1" "voters" "350" "100" "200" "50";
    tik_row "2" "given" "230" "60" "150" "20";
    tik_row "3" "found" "228" "60" "148" "20";
    tik_row "4" "spoiled" "13" "5" "8" "0";
    tik_row "5" "yes" "152" "40" "100" "12";
    tik_row "6" "no" "63" "15" "40" "8" ].

(** ** The script of [process_spb.py] *)

(** ["%02d" % i] *)
Definition format_02d (i : Z) : string :=
  if (0 <=? i) && (i <? 10) then "0" ++ str_of_int i else str_of_int i.

Module process_spb_main.

Definition data_folder : string := "spb_data".
Definition number_of_tiks : Z := 30.

(** [range(1, number_of_tiks + 1)] *)
Definition tik_numbers : list Z :=
  map Z.of_nat (seq 1 (Z.to_nat number_of_tiks)).

(** The name of the commission of a number. *)
Definition tik_name (i : Z) : string := "TIK-" ++ format_02d i.

(** The loop that reads the thirty tables and the [validate] after it,
    over [os.path.join] and over the column names and rows that the reader
    finds in the file of a given name. *)
Section Script.
Variable py_int : string -> py_result Z.
Variable path_join : string -> string -> string.
Variable read_csv : string -> option (list string) * list row.

Fixpoint attach_tiks (spb_ik_info : IkInfo) (numbers : list Z)
  : py_result IkInfo :=
  match numbers with
  | [] => inr spb_ik_info
  | i :: rest =>
      let tik := tik_name i in
      let filename := path_join data_folder (tik ++ ".csv") in
      match process_spb.extract_ik_info py_int tik
              (fst (read_csv filename)) (snd (read_csv filename)) with
      | inl e => inl e
      | inr tik_info =>
          attach_tiks (ik_info.add_ik_info spb_ik_info tik_info) rest
      end
  end.

Definition build : py_result IkInfo :=
  match attach_tiks (ik_info.init "Saint-Petersburg" false) tik_numbers with
  | inl e => inl e
  | inr spb_ik_info =>
      match ik_info.validate spb_ik_info with
      | (inl e, _) => inl (Raised e)
      | (inr _, spb_ik_info') => inr spb_ik_info'
      end
  end.
End Script.

End process_spb_main.

(** Thirty files that all hold the table of [tik], and the region the
    script builds from them. *)
Definition sample_join (a b : string) : string := a ++ "/" ++ b.

Definition same_table (filename : string) : option (list string) * list row :=
  (Some tik_header, tik_rows).

Definition sample_region : IkInfo :=
  Eval vm_compute in
    match process_spb_main.attach_tiks decimal sample_join same_table
            (ik_info.init "Saint-Petersburg" false)
            process_spb_main.tik_numbers with
    | inr spb => spb
    | inl _ => ik_info.init "" false
    end.

(** [int(x)] for a float: the integer part, towards zero. *)
Definition int_of_float (x : float) : py_result Z :=
  match x with
  | S754_nan => inl (ValueError "cannot convert float NaN to integer")
  | S754_infinity _ =>
      inl (Raised (OverflowError "cannot convert float infinity to integer"))
  | S754_zero _ => inr 0
  | S754_finite s m e =>
      inr (cond_Zopp s
             (match e with
              | Zneg p => Zpos m / 2 ^ Zpos p
              | _ => Zpos m * 2 ^ e
              end))
  end.

(** [n * x] for an int [n] and a float [x]. *)
Definition int_mul_float (n : Z) (x : float) : result float :=
  match float_of_int n with
  | inl e => inl e
  | inr a => inr (SFmul prec emax a x)
  end.

(** ** The plots of [process_spb.py]: what they are given *)

Module process_spb_plots.

(** The four lists [plot_results] fills and the count it puts in the
    title. *)
Definition scatter : Type :=
  (list float * list float * list float * list float * Z)%type.

(** The loop of [plot_results] over the units. *)
Fixpoint plot_results_loop (all_iks : list IkInfo) (acc : scatter)
  : result scatter :=
  match all_iks with
  | [] => inr acc
  | ik :: rest =>
      let '(turnout, yes_votes, no_votes, spoiled_ballots, number_of_iks) :=
        acc in
      match ik_info.get_turnout_percent ik with
      | inl e => inl e
      | inr t =>
      match ik_info.get_yes_percent ik with
      | inl e => inl e
      | inr y =>
      match ik_info.get_no_percent ik with
      | inl e => inl e
      | inr n =>
      match ik_info.get_spoiled_percent ik with
      | inl e => inl e
      | inr s =>
          plot_results_loop rest
            ((turnout ++ [t])%list, (yes_votes ++ [y])%list,
             (no_votes ++ [n])%list, (spoiled_ballots ++ [s])%list,
             number_of_iks + 1)
      end end end end
  end.

(** [plot_results(ik_info, recursive)] up to the calls of the plotting
    library. *)
Definition plot_results (ik_info : IkInfo) (recursive : bool)
  : result scatter :=
  plot_results_loop (ik_info.get_iks recursive ik_info) ([], [], [], [], 0).

(** The bins of [plot_distribution]: [k] bins per percent of turnout. *)
Definition k : Z := 3.
Definition ticks : Z := k * 100 + 1.

(** The bin of a unit in the loop of [plot_distribution]:
    [int(k * uik_info.get_turnout_percent())]. *)
Definition turnout_ind (uik_info : IkInfo) : py_result Z :=
  match ik_info.get_turnout_percent uik_info with
  | inl e => inl (Raised e)
  | inr turnout_rounded =>
      match int_mul_float k turnout_rounded with
      | inl e => inl (Raised e)
      | inr p => int_of_float p
      end
  end.

End process_spb_plots.

(** A commission with one precinct in which nobody is registered. *)
Definition empty_precinct : IkInfo := MkIkInfo "UIK 0" None 0 0 0 0 0 0.

Definition tik_with_empty : IkInfo :=
  fold_left ik_info.add_ik_info [uik1; empty_precinct]
    (ik_info.init "TIK" true).

(** A unit whose counters a float holds exactly after the multiplication
    by 100. *)
Definition plottable (u : IkInfo) : Prop :=
  (forall f, 0 <= getattr u f /\ 100 * getattr u f < 2 ^ 53)
  /\ 0 < total_voters u /\ 0 < found_ballots u.

(** The call returns a float between [lo] and [hi]. *)
Definition returns_within (r : result float) (lo hi : Q) : Prop :=
  exists v q, r = inr v /\ float_value v = Some q /\ (lo <= q <= hi)%Q.

(** ** Generic facts on the loops *)

Lemma for_each_value_state {V : Type} (call : V -> result unit * V)
    (d : list (string * V)) :
  Forall (fun kv => snd (call (snd kv)) = snd kv) d ->
  snd (for_each_value call d) = d.
Proof.
  induction 1 as [|[k v] rest Hv _ IH]; simpl; [reflexivity|].
  simpl in Hv. destruct (call v) as [[e|[]] v']; simpl in *; subst v'.
  - reflexivity.
  - destruct (for_each_value call rest) as [r rest']; simpl in *.
    now subst rest'.
Qed.

Lemma for_each_value_result {V : Type} (call : V -> result unit * V)
    (d : list (string * V)) :
  fst (for_each_value call d)
  = first_error (map (fun kv => fst (call (snd kv))) d).
Proof.
  induction d as [|[k v] rest IH]; simpl; [reflexivity|].
  destruct (call v) as [[e|[]] v']; simpl; [reflexivity|].
  destruct (for_each_value call rest) as [r rest']; simpl in *. exact IH.
Qed.

Lemma first_error_ok (rs : list (result unit)) :
  first_error rs = inr tt <-> Forall (fun r => r = inr tt) rs.
Proof.
  induction rs as [|[e|[]] rs IH]; simpl.
  - split; auto.
  - split; [discriminate|]. intros H. inversion H; discriminate.
  - rewrite IH. split; [auto|]. intros H. now inversion H.
Qed.

Lemma first_error_split (rs : list (result unit)) (e : exn) :
  first_error rs = inl e <->
  exists pre post,
    rs = (pre ++ inl e :: post)%list /\ Forall (fun r => r = inr tt) pre.
Proof.
  induction rs as [|[e'|[]] rs IH]; simpl.
  - split; [discriminate|]. intros (pre & post & H & _).
    destruct pre; discriminate.
  - split.
    + intros [= ->]. exists [], rs. split; [reflexivity|constructor].
    + intros (pre & post & H & Hpre). destruct pre as [|r pre]; simpl in H.
      * now injection H as -> _.
      * injection H as <- _. inversion Hpre; discriminate.
  - rewrite IH. split.
    + intros (pre & post & -> & Hpre). exists (inr tt :: pre), post.
      split; [reflexivity|now constructor].
    + intros (pre & post & H & Hpre). destruct pre as [|r pre]; simpl in H.
      * discriminate.
      * injection H as _ ->. exists pre, post. split; [reflexivity|].
        now inversion Hpre.
Qed.

Lemma In_yield_from_values {V A : Type} (gen : V -> list A)
    (d : list (string * V)) (x : A) :
  In x (yield_from_values gen d) <-> exists v, In v (values d) /\ In x (gen v).
Proof.
  induction d as [|[k v] rest IH]; simpl.
  - split; [tauto|]. now intros (v & [] & _).
  - rewrite in_app_iff, IH. split.
    + intros [H|(w & Hw & Hx)]; [exists v|exists w]; auto.
    + intros (w & [<-|Hw] & Hx); [left|right; exists w]; auto.
Qed.

Lemma yield_from_values_flat_map {V A : Type} (gen : V -> list A)
    (d : list (string * V)) :
  yield_from_values gen d = flat_map gen (values d).
Proof.
  induction d as [|[k v] rest IH]; simpl; [reflexivity|]. now rewrite IH.
Qed.

Lemma fold_left_sum_over (f : field) (l : list IkInfo) (a : Z) :
  fold_left (fun acc ik => acc + getattr ik f) l a = a + sum_over f l.
Proof.
  revert a. induction l as [|ik l IH]; intros a; simpl.
  - unfold sum_over; simpl; lia.
  - rewrite IH. unfold sum_over; simpl. lia.
Qed.

Lemma set_dependent_iks_same (self : IkInfo) d :
  dependent_iks self = d -> set_dependent_iks self d = self.
Proof. intros <-. now destruct self. Qed.

Lemma nodes_unfold (t : IkInfo) :
  nodes t = t :: flat_map nodes (children t).
Proof.
  destruct t as [nm [d|] tv gb fb sb yv nv]; simpl; [|reflexivity].
  unfold children; simpl. now rewrite yield_from_values_flat_map.
Qed.

Lemma In_nodes (t n : IkInfo) :
  In n (nodes t) <-> n = t \/ exists c, In c (children t) /\ In n (nodes c).
Proof.
  rewrite nodes_unfold. simpl. rewrite in_flat_map. split.
  - intros [H|H]; [left; now symmetry|now right].
  - intros [H|H]; [left; now symmetry|now right].
Qed.

Lemma In_nodes_self (t : IkInfo) : In t (nodes t).
Proof. rewrite nodes_unfold. now left. Qed.

(** ** Validation *)

(** ** What a message holds *)

Lemma starts_with_app (s b : string) : starts_with s (s ++ b) = true.
Proof.
  induction s as [|a s IH]; [reflexivity|].
  cbn [append starts_with]. now rewrite Ascii.eqb_refl.
Qed.

Lemma starts_with_refl (s : string) : starts_with s s = true.
Proof.
  induction s as [|a s IH]; [reflexivity|].
  cbn [starts_with]. now rewrite Ascii.eqb_refl.
Qed.

Lemma mentions_starts (sub s : string) :
  starts_with sub s = true -> mentions sub s = true.
Proof. intros H. destruct s; cbn [mentions]; now rewrite H. Qed.

Lemma mentions_here (s b : string) : mentions s (s ++ b) = true.
Proof. apply mentions_starts, starts_with_app. Qed.

Lemma mentions_end (s : string) : mentions s s = true.
Proof. apply mentions_starts, starts_with_refl. Qed.

Lemma mentions_skip (a sub s : string) :
  mentions sub s = true -> mentions sub (a ++ s) = true.
Proof.
  intros H. induction a as [|c a IH]; [exact H|].
  cbn [append mentions]. rewrite IH. apply orb_true_r.
Qed.

Ltac find_mention :=
  first [ apply mentions_end
        | apply mentions_here
        | apply mentions_skip; find_mention ].

Ltac message_shows :=
  split; [find_mention|repeat (constructor; [find_mention|]); constructor].

Lemma msg_found_ballots_shows (n : IkInfo) :
  shows (msg_found_ballots n) n
    [yes_votes n; no_votes n; spoiled_ballots n; found_ballots n].
Proof. unfold msg_found_ballots. message_shows. Qed.

Lemma msg_given_ballots_shows (n : IkInfo) :
  shows (msg_given_ballots n) n [given_ballots n; found_ballots n].
Proof. unfold msg_given_ballots. message_shows. Qed.

Lemma msg_total_voters_shows (n : IkInfo) :
  shows (msg_total_voters n) n [total_voters n; given_ballots n].
Proof. unfold msg_total_voters. message_shows. Qed.

Lemma msg_field_sum_shows (n : IkInfo) (f : field) (total_calc : Z) :
  shows (msg_field_sum n f total_calc) n [getattr n f; total_calc]
  /\ mentions (describe field_description f) (msg_field_sum n f total_calc)
     = true.
Proof.
  unfold msg_field_sum. split; [message_shows|].
  generalize (describe field_description f). intros s. find_mention.
Qed.

Section Validation.
Import ik_info.

Lemma validate_eq (self : IkInfo) :
  validate self =
  match own_checks self with
  | inl e => (inl e, self)
  | inr _ =>
      match dependent_iks self with
      | Some ((_ :: _) as d) =>
          match for_each_value validate d with
          | (inl e, d') => (inl e, set_dependent_iks self (Some d'))
          | (inr _, d') =>
              let self' := set_dependent_iks self (Some d') in
              (check_fields (map fst field_description) self' d', self')
          end
      | _ => (inr tt, self)
      end
  end.
Proof.
  destruct self as [nm d tv gb fb sb yv nv]. unfold own_checks.
  cbn [validate].
  destruct (validate_found_ballots _); [reflexivity|].
  destruct (validate_given_ballots _); [reflexivity|].
  destruct (validate_total_voters _); reflexivity.
Qed.

Lemma validate_state (t : IkInfo) : snd (validate t) = t.
Proof.
  induction t as [nm d tv gb fb sb yv nv IH] using IkInfo_ind.
  rewrite validate_eq.
  destruct (own_checks _) as [e|[]]; [reflexivity|].
  cbn [dependent_iks]. destruct d as [[|kv rest]|]; try reflexivity.
  specialize (IH _ eq_refl).
  pose proof (for_each_value_state validate (kv :: rest) IH) as Hs.
  destruct (for_each_value validate (kv :: rest)) as [[e|[]] d'];
    cbn [snd] in *; subst d'; reflexivity.
Qed.

Lemma validate_result (self : IkInfo) :
  fst (validate self) =
  match own_checks self with
  | inl e => inl e
  | inr _ =>
      match dependent_iks self with
      | Some ((_ :: _) as d) =>
          match first_error (map (fun kv => fst (validate (snd kv))) d) with
          | inl e => inl e
          | inr _ => check_fields (map fst field_description) self d
          end
      | _ => inr tt
      end
  end.
Proof.
  rewrite validate_eq.
  destruct (own_checks self) as [e|[]]; [reflexivity|].
  destruct (dependent_iks self) as [[|kv rest]|] eqn:Hd; try reflexivity.
  rewrite <- for_each_value_result.
  assert (Hs : snd (for_each_value validate (kv :: rest)) = kv :: rest).
  { apply for_each_value_state. apply Forall_forall. intros x _.
    apply validate_state. }
  destruct (for_each_value validate (kv :: rest)) as [[e|[]] d'];
    cbn [fst snd] in *; subst d'; [reflexivity|].
  now rewrite (set_dependent_iks_same self _ Hd).
Qed.

Lemma own_checks_ok (self : IkInfo) :
  own_checks self = inr tt <->
  invariant1 self /\ invariant2 self /\ invariant3 self.
Proof.
  unfold own_checks, validate_found_ballots, validate_given_ballots,
    validate_total_voters, invariant1, invariant2, invariant3.
  destruct (Z.eqb_spec (found_ballots self)
              (yes_votes self + no_votes self + spoiled_ballots self));
    cbn [negb]; [|split; [discriminate|tauto]].
  destruct (Z.ltb_spec (given_ballots self) (found_ballots self));
    [split; [discriminate|lia]|].
  destruct (Z.ltb_spec (total_voters self) (given_ballots self));
    [split; [discriminate|lia]|].
  split; [lia|reflexivity].
Qed.

Lemma own_checks_error (self : IkInfo) (e : exn) :
  own_checks self = inl e -> reports self e.
Proof.
  unfold own_checks, validate_found_ballots, validate_given_ballots,
    validate_total_voters.
  destruct (Z.eqb_spec (found_ballots self)
              (yes_votes self + no_votes self + spoiled_ballots self));
    cbn [negb].
  2:{ intros [= <-].
      apply reports_found; [assumption|apply msg_found_ballots_shows]. }
  destruct (Z.ltb_spec (given_ballots self) (found_ballots self)).
  { intros [= <-].
    apply reports_given; [|apply msg_given_ballots_shows].
    unfold invariant2. lia. }
  destruct (Z.ltb_spec (total_voters self) (given_ballots self)).
  { intros [= <-].
    apply reports_total; [|apply msg_total_voters_shows].
    unfold invariant3. lia. }
  discriminate.
Qed.

Lemma check_fields_ok (fs : list field) (self : IkInfo)
    (d : list (string * IkInfo)) :
  check_fields fs self d = inr tt <->
  forall f, In f fs -> getattr self f = sum_over f (values d).
Proof.
  induction fs as [|f fs IH]; cbn [check_fields].
  - split; [now intros _ f []|reflexivity].
  - rewrite fold_left_sum_over, Z.add_0_l.
    destruct (Z.eqb_spec (getattr self f) (sum_over f (values d)));
      cbn [negb].
    + rewrite IH. split.
      * intros H g [<-|Hg]; auto.
      * intros H g Hg. apply H. now right.
    + split; [discriminate|]. intros H. exfalso. apply n, H. now left.
Qed.

Lemma check_fields_error (fs : list field) (self : IkInfo)
    (d : list (string * IkInfo)) (e : exn) :
  check_fields fs self d = inl e ->
  exists f, In f fs /\ getattr self f <> sum_over f (values d)
            /\ e = AssertionError (msg_field_sum self f (sum_over f (values d))).
Proof.
  induction fs as [|f fs IH]; cbn [check_fields]; [discriminate|].
  rewrite fold_left_sum_over, Z.add_0_l.
  destruct (Z.eqb_spec (getattr self f) (sum_over f (values d)));
    cbn [negb].
  - intros H. destruct (IH H) as (g & Hg & Hne & ->).
    exists g. repeat split; auto. now right.
  - intros [= <-]. exists f. repeat split; auto. now left.
Qed.

Lemma all_fields_described (f : field) : In f (map fst field_description).
Proof. destruct f; cbn; tauto. Qed.

Lemma consistent_unfold (t : IkInfo) :
  consistent t <->
  (invariant1 t /\ invariant2 t /\ invariant3 t /\ invariant4 t)
  /\ forall c, In c (children t) -> consistent c.
Proof.
  unfold consistent. split.
  - intros H. split; [apply H, In_nodes_self|].
    intros c Hc n Hn. apply H, In_nodes. right. now exists c.
  - intros [Ht Hc] n Hn. apply In_nodes in Hn as [->|(c & Hin & Hn)]; auto.
    now apply (Hc c).
Qed.
End Validation.

Lemma first_error_In (rs : list (result unit)) (e : exn) :
  first_error rs = inl e -> In (inl e) rs.
Proof.
  intros H. apply first_error_split in H as (pre & post & -> & _).
  apply in_or_app. right. now left.
Qed.

(** C1: [validate] succeeds exactly on the trees in which invariants 1-3
    hold at every node and, at every node with children, each of the six
    counters is the sum over the direct children; an exception of
    [validate] is an [AssertionError] about a node of the tree that violates
    one of the four invariants, and its message holds the name of that node
    and the decimal form of each of the values in conflict (for a sum, also
    the description of the counter). *)
Theorem validate_iff_consistent (t : IkInfo) :
  (fst (ik_info.validate t) = inr tt <-> consistent t)
  /\ (forall e, fst (ik_info.validate t) = inl e ->
                exists n, In n (nodes t) /\ reports n e).
Proof.
  induction t as [nm d tv gb fb sb yv nv IH] using IkInfo_ind.
  set (t := MkIkInfo nm d tv gb fb sb yv nv) in *.
  rewrite validate_result, consistent_unfold.
  destruct (own_checks t) as [e|[]] eqn:Hown.
  { split.
    - split; [discriminate|]. intros [(H1 & H2 & H3 & _) _].
      assert (own_checks t = inr tt) as Hok by now apply own_checks_ok.
      congruence.
    - intros e' [= <-]. exists t. split; [apply In_nodes_self|].
      now apply own_checks_error. }
  apply own_checks_ok in Hown as (H1 & H2 & H3).
  assert (Hleaf : children t = [] ->
            (inr tt = inr tt :> result unit <->
             (invariant1 t /\ invariant2 t /\ invariant3 t /\ invariant4 t)
             /\ (forall c, In c (children t) -> consistent c))
            /\ (forall e, inr tt = inl e :> result unit ->
                  exists n, In n (nodes t) /\ reports n e)).
  { intros Hc. split; [|discriminate]. split; [|reflexivity]. intros _.
    rewrite Hc. split; [|now intros c []].
    repeat split; auto. intros Hne. now destruct Hne. }
  cbn [dependent_iks t].
  destruct d as [[|kv rest]|]; try (apply Hleaf; reflexivity).
  clear Hleaf. specialize (IH _ eq_refl). rewrite Forall_forall in IH.
  set (d := kv :: rest) in *.
  assert (Hch : children t = values d) by reflexivity.
  assert (Hne : children t <> []) by (rewrite Hch; discriminate).
  destruct (first_error _) as [e|[]] eqn:Hfe.
  { apply first_error_In, in_map_iff in Hfe as (kv' & Hkv' & Hin).
    destruct (IH _ Hin) as [IHok IHerr]. split.
    - split; [discriminate|]. intros [_ Hc].
      assert (consistent (snd kv')) as Hcons.
      { apply Hc. rewrite Hch. now apply in_map. }
      apply IHok in Hcons. congruence.
    - intros e' [= <-]. destruct (IHerr _ Hkv') as (n & Hn & Hrep).
      exists n. split; [|exact Hrep]. apply In_nodes. right.
      exists (snd kv'). split; [|exact Hn]. rewrite Hch. now apply in_map. }
  apply first_error_ok in Hfe. rewrite Forall_map, Forall_forall in Hfe.
  assert (Hcs : forall c, In c (children t) -> consistent c).
  { intros c Hc. rewrite Hch in Hc. apply in_map_iff in Hc as (kv' & <- & Hin).
    apply (IH _ Hin), Hfe, Hin. }
  split.
  - rewrite check_fields_ok. split.
    + intros Hf. split; [|exact Hcs]. repeat split; auto.
      intros _ f. rewrite Hch. apply Hf, all_fields_described.
    + intros [(_ & _ & _ & H4) _] f _. rewrite <- Hch. now apply H4.
  - intros e He. apply check_fields_error in He as (f & _ & Hf & ->).
    exists t. split; [apply In_nodes_self|]. rewrite <- Hch in *.
    apply reports_sum; try assumption; apply msg_field_sum_shows.
Qed.

Lemma validate_iff_consistent_witness :
  consistent tik
  /\ (exists n,
        In n (nodes both_wrong_parent)
        /\ reports n
             (AssertionError
                ("IK P." ++ nl ++ " Yes votes (5) + No votes (3) + "
                 ++ "spoiled ballots (1) != found_ballots 10")))
  /\ (exists n,
        In n (nodes sum_wrong_parent)
        /\ reports n
             (AssertionError
                "IK S. 'Amount of potential voters': total=101, but sum=100")).
Proof.
  split; [|split].
  - apply (proj1 (validate_iff_consistent tik)). reflexivity.
  - apply (proj2 (validate_iff_consistent both_wrong_parent)). reflexivity.
  - apply (proj2 (validate_iff_consistent sum_wrong_parent)). reflexivity.
Defined.

(** C7, as stated, fails: when a child and its parent both violate
    invariant 1, the exception comes from the parent's own check and carries
    the parent's name; it is not the exception the child's [validate]
    raises. *)
Lemma validate_names_parent_first :
  In both_wrong_child (children both_wrong_parent)
  /\ ~ invariant1 both_wrong_child
  /\ ~ invariant1 both_wrong_parent
  /\ fst (ik_info.validate both_wrong_parent)
     = inl (AssertionError
              ("IK P." ++ nl ++ " Yes votes (5) + No votes (3) + "
               ++ "spoiled ballots (1) != found_ballots 10"))
  /\ fst (ik_info.validate both_wrong_child)
     = inl (AssertionError
              ("IK C." ++ nl ++ " Yes votes (5) + No votes (3) + "
               ++ "spoiled ballots (1) != found_ballots 10"))
  /\ fst (ik_info.validate both_wrong_parent)
     <> fst (ik_info.validate both_wrong_child).
Proof.
  split; [now left|].
  split; [cbv; discriminate|].
  split; [cbv; discriminate|].
  split; [reflexivity|].
  split; [reflexivity|].
  cbv; discriminate.
Qed.

(** C7, amended: [validate] runs the node's own checks of invariants 1-3
    first, so a node that violates one of them is the node reported,
    whatever its children hold; only when they pass are the children
    validated, in insertion order, and the first child that fails gives the
    exception, before the node's six sums are compared. *)
Theorem validate_order (t : IkInfo) :
  (~ (invariant1 t /\ invariant2 t /\ invariant3 t) ->
   exists e, fst (ik_info.validate t) = inl e
             /\ (e = AssertionError (msg_found_ballots t)
                 \/ e = AssertionError (msg_given_ballots t)
                 \/ e = AssertionError (msg_total_voters t)))
  /\ (invariant1 t /\ invariant2 t /\ invariant3 t ->
      forall pre kv post e,
        dependent_iks t = Some (pre ++ kv :: post)%list ->
        Forall (fun kv' => fst (ik_info.validate (snd kv')) = inr tt) pre ->
        fst (ik_info.validate (snd kv)) = inl e ->
        fst (ik_info.validate t) = inl e).
Proof.
  rewrite validate_result. split.
  - intros Hbad. destruct (own_checks t) as [e|[]] eqn:Hown.
    + exists e. split; [reflexivity|].
      unfold own_checks, ik_info.validate_found_ballots,
        ik_info.validate_given_ballots, ik_info.validate_total_voters in Hown.
      destruct (negb _); [injection Hown as <-; auto|].
      destruct (_ <? _); [injection Hown as <-; auto|].
      destruct (_ <? _); [injection Hown as <-; auto|discriminate].
    + exfalso. now apply Hbad, own_checks_ok.
  - intros Hok pre kv post e Hd Hpre Hkv.
    apply own_checks_ok in Hok. rewrite Hok, Hd.
    assert (Hfe : first_error
                    (map (fun kv0 => fst (ik_info.validate (snd kv0)))
                       (pre ++ kv :: post)) = inl e).
    { apply first_error_split.
      exists (map (fun kv0 => fst (ik_info.validate (snd kv0))) pre),
             (map (fun kv0 => fst (ik_info.validate (snd kv0))) post).
      split.
      - rewrite map_app. cbn [map]. now rewrite Hkv.
      - now apply Forall_map. }
    destruct (pre ++ kv :: post)%list eqn:Hl.
    + destruct pre; discriminate.
    + now rewrite Hfe.
Qed.

Lemma validate_order_witness :
  (exists e, fst (ik_info.validate both_wrong_parent) = inl e
             /\ (e = AssertionError (msg_found_ballots both_wrong_parent)
                 \/ e = AssertionError (msg_given_ballots both_wrong_parent)
                 \/ e = AssertionError (msg_total_voters both_wrong_parent)))
  /\ fst (ik_info.validate child_wrong_only)
     = inl (AssertionError (msg_found_ballots both_wrong_child)).
Proof.
  split.
  - apply (proj1 (validate_order both_wrong_parent)).
    cbv. intros [H _]. discriminate.
  - apply (proj2 (validate_order child_wrong_only))
      with (pre := []) (kv := ("C", both_wrong_child)) (post := []).
    + cbv. repeat split; discriminate.
    + reflexivity.
    + constructor.
    + reflexivity.
Defined.

(** C9: on a tree that [validate] accepts, a second call accepts it too,
    and after each call the tree (names, counters, children) is what it was
    before the first. *)
Theorem validate_idempotent (t : IkInfo) :
  fst (ik_info.validate t) = inr tt ->
  snd (ik_info.validate t) = t
  /\ fst (ik_info.validate (snd (ik_info.validate t))) = inr tt
  /\ snd (ik_info.validate (snd (ik_info.validate t))) = t.
Proof.
  intros Hok. rewrite !validate_state. auto.
Qed.

Lemma validate_idempotent_witness :
  snd (ik_info.validate tik) = tik
  /\ fst (ik_info.validate (snd (ik_info.validate tik))) = inr tt
  /\ snd (ik_info.validate (snd (ik_info.validate tik))) = tik.
Proof.
  apply (validate_idempotent tik). reflexivity.
Defined.

(** ** Traversal *)

Lemma flat_map_singleton {A B : Type} (f : A -> B) (l : list A) :
  flat_map (fun x => [f x]) l = map f l.
Proof. induction l as [|x l IH]; simpl; [reflexivity|now rewrite IH]. Qed.

Lemma filter_over_flat_map {A B : Type} (p : B -> bool) (f : A -> list B)
    (l : list A) :
  filter p (flat_map f l) = flat_map (fun x => filter p (f x)) l.
Proof.
  induction l as [|x l IH]; simpl; [reflexivity|].
  now rewrite filter_app, IH.
Qed.

Lemma length_over_flat_map {A B : Type} (f : A -> list B) (l : list A) :
  List.length (flat_map f l) = list_sum (map (fun x => List.length (f x)) l).
Proof.
  induction l as [|x l IH]; simpl; [reflexivity|].
  now rewrite length_app, IH.
Qed.

Lemma flat_map_ext_on {A B : Type} (f g : A -> list B) (l : list A) :
  (forall x, In x l -> f x = g x) -> flat_map f l = flat_map g l.
Proof.
  induction l as [|x l IH]; simpl; intros H; [reflexivity|].
  rewrite (H x) by now left. rewrite IH; [reflexivity|].
  intros y Hy. apply H. now right.
Qed.

Lemma get_iks_unfold (r : bool) (t : IkInfo) :
  ik_info.get_iks r t =
  if is_leaf t then [t]
  else flat_map (fun ik => if r then ik_info.get_iks true ik else [ik])
         (children t).
Proof.
  destruct t as [nm [[|kv rest]|] tv gb fb sb yv nv]; try reflexivity.
  cbn [ik_info.get_iks dependent_iks].
  now rewrite yield_from_values_flat_map.
Qed.

Lemma count_leaves_unfold (t : IkInfo) :
  count_leaves t =
  if is_leaf t then 1%nat else list_sum (map count_leaves (children t)).
Proof.
  destruct t as [nm [[|kv rest]|] tv gb fb sb yv nv]; try reflexivity.
  cbn [count_leaves dependent_iks].
  now rewrite yield_from_values_flat_map, flat_map_singleton.
Qed.

Lemma IkInfo_children_ind (P : IkInfo -> Prop) :
  (forall t, (forall c, In c (children t) -> P c) -> P t) ->
  forall t, P t.
Proof.
  intros step t. induction t as [nm d tv gb fb sb yv nv IH] using IkInfo_ind.
  apply step. unfold children. cbn [dependent_iks]. intros c Hc.
  destruct d as [d|]; [|easy].
  specialize (IH d eq_refl). rewrite Forall_forall in IH.
  apply in_map_iff in Hc as (kv & <- & Hin). now apply IH.
Qed.

Lemma get_iks_filter_leaves (t : IkInfo) :
  ik_info.get_iks true t = filter is_leaf (nodes t).
Proof.
  induction t as [t IHc] using IkInfo_children_ind.
  rewrite get_iks_unfold, nodes_unfold. cbn [filter].
  destruct (is_leaf t) eqn:Hl.
  - unfold is_leaf in Hl. destruct (children t); [reflexivity|discriminate].
  - rewrite filter_over_flat_map. now apply flat_map_ext_on.
Qed.

Lemma get_iks_count_leaves (t : IkInfo) :
  List.length (ik_info.get_iks true t) = count_leaves t.
Proof.
  induction t as [t IHc] using IkInfo_children_ind.
  rewrite get_iks_unfold, count_leaves_unfold.
  destruct (is_leaf t); [reflexivity|].
  rewrite length_over_flat_map. f_equal. now apply map_ext_in.
Qed.

(** C5: the recursive traversal yields the leaves of the tree (the nodes
    without children) in depth-first, insertion order, as many as the tree
    has leaves; the non-recursive traversal of a node with children yields
    its direct children in insertion order; on a leaf either traversal
    yields the node alone. *)
Theorem get_iks_traversal (t : IkInfo) :
  ik_info.get_iks true t = filter is_leaf (nodes t)
  /\ List.length (ik_info.get_iks true t) = count_leaves t
  /\ (children t <> [] -> ik_info.get_iks false t = children t)
  /\ (children t = [] -> forall r, ik_info.get_iks r t = [t]).
Proof.
  split; [apply get_iks_filter_leaves|].
  split; [apply get_iks_count_leaves|].
  split.
  - intros Hne. rewrite get_iks_unfold. unfold is_leaf.
    destruct (children t) as [|c cs]; [now destruct Hne|].
    now rewrite flat_map_singleton, map_id.
  - intros He r. rewrite get_iks_unfold. unfold is_leaf. now rewrite He.
Qed.

Lemma get_iks_traversal_witness :
  ik_info.get_iks false tik = [uik1; uik2; uik3]
  /\ forall r, ik_info.get_iks r uik1 = [uik1].
Proof.
  split.
  - apply (proj1 (proj2 (proj2 (get_iks_traversal tik)))). discriminate.
  - apply (proj2 (proj2 (proj2 (get_iks_traversal uik1)))). reflexivity.
Defined.

(** ** Attaching dependents *)

Lemma setitem_fresh {V : Type} (d : list (string * V)) (k : string) (v : V) :
  ~ In k (keys d) -> setitem d k v = (d ++ [(k, v)])%list.
Proof.
  induction d as [|[k' v'] d IH]; simpl; intros Hk; [reflexivity|].
  destruct (String.eqb_spec k' k) as [->|Hne]; [tauto|].
  rewrite IH; [reflexivity|tauto].
Qed.

Lemma sum_over_app (f : field) (l1 l2 : list IkInfo) :
  sum_over f (l1 ++ l2) = sum_over f l1 + sum_over f l2.
Proof.
  unfold sum_over. rewrite map_app.
  induction (map (fun ik => getattr ik f) l1) as [|x l IH]; simpl; lia.
Qed.

Lemma add_ik_info_dict (p c : IkInfo) :
  dict_of (ik_info.add_ik_info p c) = setitem (dict_of p) (name c) c.
Proof.
  unfold dict_of, ik_info.add_ik_info. cbn [dependent_iks].
  now destruct (dependent_iks p) as [[|kv d]|].
Qed.

Lemma add_ik_info_getattr (p c : IkInfo) (f : field) :
  getattr (ik_info.add_ik_info p c) f = getattr p f + getattr c f.
Proof. now destruct f. Qed.

Lemma fold_add_ik_info (cs pre : list IkInfo) (p : IkInfo) :
  dict_of p = map entry pre ->
  NoDup (map name (pre ++ cs)) ->
  dict_of (fold_left ik_info.add_ik_info cs p) = map entry (pre ++ cs)
  /\ forall f,
       getattr (fold_left ik_info.add_ik_info cs p) f
       = getattr p f + sum_over f cs.
Proof.
  revert pre p. induction cs as [|c cs IH]; intros pre p Hd Hnd; cbn [fold_left].
  - rewrite app_nil_r. split; [exact Hd|]. intros f. unfold sum_over; simpl; lia.
  - assert (Hfresh : ~ In (name c) (keys (dict_of p))).
    { rewrite Hd. unfold keys. rewrite map_map. cbn [entry fst].
      rewrite map_app in Hnd. apply NoDup_remove_2 in Hnd.
      intros Hin. apply Hnd, in_or_app. now left. }
    destruct (IH (pre ++ [c])%list (ik_info.add_ik_info p c)) as [Hd' Hs'].
    + rewrite add_ik_info_dict, setitem_fresh by exact Hfresh.
      now rewrite Hd, map_app.
    + now rewrite <- app_assoc.
    + rewrite <- app_assoc in Hd'. split; [exact Hd'|].
      intros f. rewrite Hs', add_ik_info_getattr.
      change (sum_over f (c :: cs)) with (getattr c f + sum_over f cs). lia.
Qed.

Lemma children_dict_of (p : IkInfo) : children p = values (dict_of p).
Proof. unfold children, dict_of. now destruct (dependent_iks p). Qed.

Lemma values_entries (cs : list IkInfo) : values (map entry cs) = cs.
Proof. unfold values. rewrite map_map. apply map_id. Qed.

(** C2, as stated, fails in its last clause: [add_ik_info] is not the only
    operation that changes the counters of a container.  [extract_ik_info]
    creates the container empty, fills its dictionary itself, and gives the
    container its counters by [setattr] from the totals column: the row for
    [total_voters] takes the counters of the container from all zero to
    [350] registered voters, and the container after the row is not what a
    call of [add_ik_info] on the container before the row returns, for any
    dependent. *)
Lemma counters_assigned_without_add_ik_info :
  let this_tik :=
    set_dependent_iks (ik_info.init "TIK" true)
      (Some (fresh_dependents (slice_3_to_last tik_header))) in
  exists t',
    read_line decimal process_spb.line_as_ik_info_field "N" this_tik
      (tik_row "1" "voters" "350" "100" "200" "50") = inr t'
    /\ children this_tik <> []
    /\ counters this_tik = [0; 0; 0; 0; 0; 0]
    /\ counters t' = [350; 0; 0; 0; 0; 0]
    /\ forall c, t' <> ik_info.add_ik_info this_tik c.
Proof.
  cbv zeta. eexists. split; [vm_compute; reflexivity|].
  split; [discriminate|]. split; [reflexivity|]. split; [reflexivity|].
  intros c H. apply (f_equal dependent_iks) in H.
  change (dependent_iks (ik_info.add_ik_info _ c))
    with (Some (setitem
                  [ ("UIK 1", MkIkInfo "UIK 1" None 0 0 0 0 0 0);
                    ("UIK 2", MkIkInfo "UIK 2" None 0 0 0 0 0 0);
                    ("UIK 3", MkIkInfo "UIK 3" None 0 0 0 0 0 0) ]
                  (name c) c)) in H.
  cbn [dependent_iks setitem] in H.
  destruct (String.eqb "UIK 1" (name c)); congruence.
Qed.

(** C2: a node created empty and then given the dependents [cs], of
    pairwise distinct names, by successive calls of [add_ik_info] has [cs]
    as its children, in that order, under their names, and each of its six
    counters is the sum of that counter over [cs]. *)
Theorem add_ik_info_sums (nm : string) (has_dependent : bool)
    (cs : list IkInfo) :
  NoDup (map name cs) ->
  let p := fold_left ik_info.add_ik_info cs (ik_info.init nm has_dependent) in
  children p = cs
  /\ (forall d, dependent_iks p = Some d -> d = map entry cs)
  /\ (forall f, getattr p f = sum_over f (children p)).
Proof.
  intros Hnd p.
  destruct (fold_add_ik_info cs [] (ik_info.init nm has_dependent))
    as [Hd Hs]; [now destruct has_dependent|exact Hnd|].
  fold p in Hd, Hs. cbn [app] in Hd.
  assert (Hc : children p = cs).
  { now rewrite children_dict_of, Hd, values_entries. }
  split; [exact Hc|]. split.
  - intros d Hp. unfold dict_of in Hd. now rewrite Hp in Hd.
  - intros f. rewrite Hs, Hc. now destruct f.
Qed.

Lemma add_ik_info_sums_witness :
  children tik = [uik1; uik2; uik3]
  /\ (forall d, dependent_iks tik = Some d -> d = map entry [uik1; uik2; uik3])
  /\ (forall f, getattr tik f = sum_over f (children tik)).
Proof.
  apply (add_ik_info_sums "TIK" true [uik1; uik2; uik3]).
  repeat constructor; cbn; intuition discriminate.
Defined.

(** C3, as stated, fails: attaching a second dependent under a name the
    dictionary already holds raises nothing; the call returns, the entry of
    that name now holds the new dependent, and the counters of both have
    been added to the parent's. *)
Lemma add_ik_info_duplicate_accepted :
  contains (dict_of holds_dup1) (name dup2) = true
  /\ ik_info.add_ik_info holds_dup1 dup2
     = MkIkInfo "TIK" (Some [("A", dup2)]) 12 10 10 2 5 3
  /\ total_voters (ik_info.add_ik_info holds_dup1 dup2)
     <> sum_over f_total_voters (children (ik_info.add_ik_info holds_dup1 dup2)).
Proof.
  split; [reflexivity|]. split; [reflexivity|]. cbv. discriminate.
Qed.

Lemma setitem_present {V : Type} (d : list (string * V)) (k : string) (v : V) :
  contains d k = true ->
  keys (setitem d k v) = keys d
  /\ getitem (setitem d k v) k = Some v
  /\ forall k', k' <> k -> getitem (setitem d k v) k' = getitem d k'.
Proof.
  unfold contains, keys.
  induction d as [|[k0 v0] d IH]; simpl; [discriminate|].
  destruct (String.eqb_spec k0 k) as [->|Hne]; simpl.
  - intros _. rewrite String.eqb_refl.
    split; [reflexivity|]. split; [reflexivity|].
    intros k' Hk'. destruct (String.eqb_spec k k'); [congruence|reflexivity].
  - intros H. destruct (IH H) as (Hk & Hg & Ho).
    destruct (String.eqb_spec k0 k); [contradiction|].
    split; [now rewrite Hk|]. split; [exact Hg|].
    intros k' Hk'. destruct (String.eqb k0 k'); [reflexivity|now apply Ho].
Qed.

(** C3, amended: attaching a dependent whose name the dictionary already
    holds does not fail; the dictionary keeps its keys and their order, the
    entry of that name now holds the new dependent, the other entries are
    untouched, and each of the six counters of the new dependent is added to
    the parent's. *)
Theorem add_ik_info_duplicate (self ik_info : IkInfo)
    (d : list (string * IkInfo)) :
  dependent_iks self = Some d ->
  contains d (name ik_info) = true ->
  exists d',
    dependent_iks (ik_info.add_ik_info self ik_info) = Some d'
    /\ keys d' = keys d
    /\ getitem d' (name ik_info) = Some ik_info
    /\ (forall k, k <> name ik_info -> getitem d' k = getitem d k)
    /\ forall f, getattr (ik_info.add_ik_info self ik_info) f
                 = getattr self f + getattr ik_info f.
Proof.
  intros Hd Hin. exists (setitem d (name ik_info) ik_info).
  destruct (setitem_present d (name ik_info) ik_info Hin) as (Hk & Hg & Ho).
  split.
  - unfold ik_info.add_ik_info. cbn [dependent_iks]. rewrite Hd.
    destruct d as [|kv d]; [discriminate Hin|reflexivity].
  - repeat split; auto. intros f. apply add_ik_info_getattr.
Qed.

Lemma add_ik_info_duplicate_witness :
  exists d',
    dependent_iks (ik_info.add_ik_info holds_dup1 dup2) = Some d'
    /\ keys d' = ["A"]
    /\ getitem d' "A" = Some dup2
    /\ (forall k, k <> "A" -> getitem d' k = getitem [("A", dup1)] k)
    /\ forall f, getattr (ik_info.add_ik_info holds_dup1 dup2) f
                 = getattr holds_dup1 f + getattr dup2 f.
Proof.
  apply (add_ik_info_duplicate holds_dup1 dup2 [("A", dup1)]); reflexivity.
Defined.

(** ** Lookup by name *)

(** C6: the lookup does not search below the direct children.  A name
    borne by a grandchild only makes it call [get_ik_by_name] on a key of
    the dictionary, a [str], which raises [AttributeError]; on a node
    without dictionary a name other than its own raises [TypeError]; a
    depth-first search finds the first and reports the second as absent.
    Names of the node itself and of its direct children are found. *)
Theorem get_ik_by_name_below_children :
  find_by_name region "B" = Some precinct
  /\ ik_info.get_ik_by_name region "B"
     = inl (AttributeError "'str' object has no attribute 'get_ik_by_name'")
  /\ find_by_name precinct "Z" = None
  /\ ik_info.get_ik_by_name precinct "Z"
     = inl (TypeError "argument of type 'NoneType' is not iterable")
  /\ ik_info.get_ik_by_name region "R" = inr (Some region)
  /\ ik_info.get_ik_by_name region "A" = inr (Some commission).
Proof. repeat split. Qed.

(** ** The two copies of the class *)

Lemma for_each_value_ext {V : Type} (f g : V -> result unit * V)
    (d : list (string * V)) :
  Forall (fun kv => f (snd kv) = g (snd kv)) d ->
  for_each_value f d = for_each_value g d.
Proof.
  induction 1 as [|[k v] rest Hv _ IH]; simpl; [reflexivity|].
  simpl in Hv. now rewrite Hv, IH.
Qed.

Lemma process_tik_validate (t : IkInfo) (data_file : option string) :
  process_tik.validate data_file t = ik_info.validate t.
Proof.
  revert data_file.
  induction t as [nm d tv gb fb sb yv nv IH] using IkInfo_ind.
  intros data_file. cbn [process_tik.validate ik_info.validate dependent_iks].
  change (process_tik.validate_found_ballots) with ik_info.validate_found_ballots.
  change (process_tik.validate_given_ballots) with ik_info.validate_given_ballots.
  change (process_tik.validate_total_voters) with ik_info.validate_total_voters.
  destruct (ik_info.validate_found_ballots _); [reflexivity|].
  destruct (ik_info.validate_given_ballots _); [reflexivity|].
  destruct (ik_info.validate_total_voters _); [reflexivity|].
  destruct d as [[|kv rest]|]; try reflexivity.
  specialize (IH _ eq_refl).
  rewrite (for_each_value_ext (process_tik.validate None) ik_info.validate).
  - reflexivity.
  - eapply Forall_impl; [|exact IH]. intros kv' H. apply H.
Qed.

(** C10: on the same node, the methods of the class of [process_tik.py]
    return the same value or raise the same exception as those of the class
    of [ik_info.py], and leave the node in the same state. *)
Theorem implementations_agree (self : IkInfo) :
  process_tik.get_turnout_percent self = ik_info.get_turnout_percent self
  /\ process_tik.get_yes_percent self = ik_info.get_yes_percent self
  /\ process_tik.get_no_percent self = ik_info.get_no_percent self
  /\ process_tik.get_spoiled_percent self = ik_info.get_spoiled_percent self
  /\ process_tik.get_number_of_iks self = ik_info.get_number_of_iks self
  /\ (forall recursive,
        process_tik.get_iks recursive self = ik_info.get_iks recursive self)
  /\ (forall ik_info,
        process_tik.add_ik_info self ik_info
        = ik_info.add_ik_info self ik_info)
  /\ (forall data_file,
        process_tik.validate data_file self = ik_info.validate self).
Proof.
  repeat split; try reflexivity. apply process_tik_validate.
Qed.

(** ** Percentages *)

Lemma f100_is_100 : float_of_int 100 = inr f100.
Proof. reflexivity. Qed.

Lemma float_of_int_error (z : Z) (e : exn) :
  float_of_int z = inl e ->
  e = OverflowError "int too large to convert to float".
Proof.
  unfold float_of_int. destruct (binary_normalize prec emax z 0 false);
    congruence.
Qed.

Lemma percent_zero_den (num : Z) :
  percent num 0 = inl (ZeroDivisionError "float division by zero")
  \/ percent num 0 = inl (OverflowError "int too large to convert to float").
Proof.
  unfold percent, float_mul_int.
  destruct (float_of_int num) as [e|b] eqn:Hn.
  - right. now rewrite (float_of_int_error _ _ Hn).
  - left. reflexivity.
Qed.

(** C4: with [total_voters] zero the turnout, and with [found_ballots]
    zero the three shares, are not returned: the call raises
    [ZeroDivisionError] (or, when the numerator is beyond the range of a
    float, [OverflowError] before the division is reached); no float, hence
    no NaN and no infinity, comes back. *)
Theorem percent_of_nothing_raises (self : IkInfo) :
  (total_voters self = 0 ->
   ik_info.get_turnout_percent self
   = inl (ZeroDivisionError "float division by zero")
   \/ ik_info.get_turnout_percent self
      = inl (OverflowError "int too large to convert to float"))
  /\ (found_ballots self = 0 ->
      forall get,
        In get [ik_info.get_yes_percent; ik_info.get_no_percent;
                ik_info.get_spoiled_percent] ->
        get self = inl (ZeroDivisionError "float division by zero")
        \/ get self = inl (OverflowError "int too large to convert to float")).
Proof.
  split.
  - intros H. unfold ik_info.get_turnout_percent. rewrite H.
    apply percent_zero_den.
  - intros H get [<-|[<-|[<-|[]]]];
      unfold ik_info.get_yes_percent, ik_info.get_no_percent,
        ik_info.get_spoiled_percent; rewrite H; apply percent_zero_den.
Qed.

Lemma percent_of_nothing_raises_witness :
  ik_info.get_turnout_percent (ik_info.init "UIK" false)
  = inl (ZeroDivisionError "float division by zero")
  /\ ik_info.get_yes_percent (ik_info.init "UIK" false)
     = inl (ZeroDivisionError "float division by zero").
Proof.
  destruct (percent_of_nothing_raises (ik_info.init "UIK" false)) as [Ht Hf].
  split.
  - destruct (Ht eq_refl) as [H|H]; [exact H|discriminate H].
  - destruct (Hf eq_refl ik_info.get_yes_percent) as [H|H];
      [now left|exact H|discriminate H].
Defined.

(** ** Rounding *)

Lemma digits2_pos_size (p : positive) : digits2_pos p = Pos.size p.
Proof. induction p; simpl; congruence. Qed.

Lemma digits_log2 (p : positive) :
  Zpos (digits2_pos p) = Z.succ (Z.log2 (Zpos p)).
Proof.
  rewrite digits2_pos_size. destruct p; simpl; try rewrite Pos2Z.inj_succ;
    reflexivity.
Qed.

Lemma digits_bounds (p : positive) :
  2 ^ (Zpos (digits2_pos p) - 1) <= Zpos p < 2 ^ Zpos (digits2_pos p).
Proof.
  rewrite digits_log2. replace (Z.succ (Z.log2 (Zpos p)) - 1) with (Z.log2 (Zpos p)) by lia.
  apply Z.log2_spec. lia.
Qed.

Lemma digits_unique (p : positive) (k : Z) :
  2 ^ (k - 1) <= Zpos p < 2 ^ k -> Zpos (digits2_pos p) = k.
Proof.
  intros H. rewrite digits_log2.
  assert (0 < k).
  { destruct (Z.ltb_spec 0 k); [assumption|]. exfalso.
    assert (2 ^ k <= 2 ^ 0) by (apply Z.pow_le_mono_r; lia). simpl in *. lia. }
  rewrite (Z.log2_unique (Zpos p) (k - 1)); try lia.
  replace (Z.succ (k - 1)) with k by lia. exact H.
Qed.

Lemma iter_xO (m d : positive) :
  Zpos (Pos.iter xO m d) = Zpos m * 2 ^ Zpos d.
Proof.
  induction d as [|d IH] using Pos.peano_ind.
  - simpl. lia.
  - rewrite Pos.iter_succ, Pos2Z.inj_succ, Z.pow_succ_r by lia.
    rewrite Pos2Z.inj_xO, IH. lia.
Qed.

Lemma iter_pos_iter {A : Type} (f : A -> A) (n : positive) (x : A) :
  SpecFloat.iter_pos f n x = Pos.iter f x n.
Proof.
  revert x. induction n as [n IH|n IH|]; intros x; simpl.
  - rewrite !IH, !Pos.iter_swap. reflexivity.
  - now rewrite !IH.
  - reflexivity.
Qed.

Lemma shr_exact (m n : positive) :
  SpecFloat.iter_pos shr_1 n (Build_shr_record (Zpos (Pos.iter xO m n)) false false)
  = Build_shr_record (Zpos m) false false.
Proof.
  rewrite iter_pos_iter. induction n as [|n IH] using Pos.peano_ind.
  - reflexivity.
  - rewrite Pos.iter_succ_r. rewrite Pos.iter_succ. simpl. exact IH.
Qed.

Lemma located_div (q r m2 : Z) :
  0 <= r < m2 -> located q (new_location m2 r) (q * m2 + r) m2.
Proof.
  intros Hr. unfold new_location, new_location_even, new_location_odd.
  destruct (Z.even m2) eqn:He.
  - destruct (Z.eqb_spec r 0) as [->|Hne]; [cbv [located]; lia|].
    destruct (Z.compare_spec (2 * r) m2); cbv [located]; lia.
  - assert (Hodd : Z.odd m2 = true) by (rewrite <- Z.negb_even, He; reflexivity).
    apply Z.odd_spec in Hodd as [k Hk].
    destruct (Z.eqb_spec r 0) as [->|Hne]; [cbv [located]; lia|].
    destruct (Z.compare_spec (2 * r + 1) m2); cbv [located]; lia.
Qed.

Lemma loc_of_record_of_loc (m : Z) (l : location) :
  loc_of_shr_record (shr_record_of_loc m l) = l.
Proof. destruct l as [|[]]; reflexivity. Qed.

Lemma shr_m_record_of_loc (m : Z) (l : location) :
  shr_m (shr_record_of_loc m l) = m.
Proof. destruct l as [|[]]; reflexivity. Qed.

Lemma located_shr_1 (q : positive) (l : location) (N D : Z) :
  0 < D ->
  located (Zpos q) l N D ->
  located (shr_m (shr_1 (shr_record_of_loc (Zpos q) l)))
    (loc_of_shr_record (shr_1 (shr_record_of_loc (Zpos q) l))) N (2 * D).
Proof.
  intros HD. destruct l as [|[]]; destruct q as [q|q|];
    cbn [shr_1 shr_record_of_loc shr_m loc_of_shr_record located orb];
    intros H; lia.
Qed.

Lemma round_nearest_even_ok (m : Z) (l : location) (N D : Z) :
  0 < D -> located m l N D ->
  2 * Z.abs (round_nearest_even m l * D - N) <= D
  /\ m <= round_nearest_even m l <= m + 1.
Proof.
  intros HD. destruct l as [|[]]; cbn [round_nearest_even located];
    intros H; try destruct (Z.even m); split; lia.
Qed.

Lemma binary_round_aux_eq (s : bool) (mx ex : Z) (lx : location) :
  binary_round_aux prec emax s mx ex lx =
  let '(mrs, e) := shr_fexp prec emax mx ex lx in
  finish s (round_nearest_even (shr_m mrs) (loc_of_shr_record mrs)) e.
Proof.
  unfold binary_round_aux, finish.
  destruct (shr_fexp prec emax mx ex lx) as [mrs e]. reflexivity.
Qed.

Lemma fexp_normal (d e : Z) :
  -1000 <= e -> 53 <= d -> fexp prec emax (d + e) - e = d - 53.
Proof. unfold fexp, emin, prec, emax. lia. Qed.

Lemma shr_fexp_53 (m : positive) (e : Z) (l : location) :
  Zpos (digits2_pos m) = 53 -> -1000 <= e ->
  shr_fexp prec emax (Zpos m) e l = (shr_record_of_loc (Zpos m) l, e).
Proof.
  intros Hd He. unfold shr_fexp. cbn [Zdigits2].
  rewrite Hd, fexp_normal by lia. reflexivity.
Qed.

Lemma shr_fexp_54 (m : positive) (e : Z) (l : location) :
  Zpos (digits2_pos m) = 54 -> -1000 <= e ->
  shr_fexp prec emax (Zpos m) e l
  = (shr_1 (shr_record_of_loc (Zpos m) l), e + 1).
Proof.
  intros Hd He. unfold shr_fexp. cbn [Zdigits2].
  rewrite Hd, fexp_normal by lia. reflexivity.
Qed.

Lemma digits_iter_xO (m n : positive) :
  Zpos (digits2_pos (Pos.iter xO m n)) = Zpos (digits2_pos m) + Zpos n.
Proof.
  apply digits_unique. rewrite iter_xO.
  pose proof (digits_bounds m) as [Hlo Hhi].
  replace (Zpos (digits2_pos m) + Zpos n - 1)
    with (Zpos (digits2_pos m) - 1 + Zpos n) by lia.
  rewrite !Z.pow_add_r by lia.
  assert (0 < 2 ^ Zpos n) by (apply Z.pow_pos_nonneg; lia).
  split; [apply Z.mul_le_mono_nonneg_r; lia|apply Z.mul_lt_mono_pos_r; lia].
Qed.

Lemma shr_fexp_exact (m n : positive) (e : Z) :
  Zpos (digits2_pos m) = 53 -> -1000 <= e ->
  shr_fexp prec emax (Zpos (Pos.iter xO m n)) e loc_Exact
  = (Build_shr_record (Zpos m) false false, e + Zpos n).
Proof.
  intros Hd He. unfold shr_fexp. cbn [Zdigits2].
  rewrite digits_iter_xO, Hd, fexp_normal by lia.
  replace (53 + Zpos n - 53) with (Zpos n) by lia.
  cbn [shr shr_record_of_loc]. now rewrite shr_exact.
Qed.

Lemma finish_normal (s : bool) (m : positive) (e : Z) :
  Zpos (digits2_pos m) = 53 -> -1000 <= e <= 900 ->
  finish s (Zpos m) e = S754_finite s m e.
Proof.
  intros Hd He. unfold finish. rewrite shr_fexp_53 by lia.
  cbn [shr_record_of_loc shr_m].
  destruct (Z.leb_spec e (emax - prec)); [reflexivity|].
  unfold emax, prec in *. lia.
Qed.

(** Rounding an exact multiple of a power of two. *)
Lemma binary_round_aux_exact (s : bool) (m n : positive) (e : Z) :
  Zpos (digits2_pos m) = 53 -> -1000 <= e -> e + Zpos n <= 900 ->
  binary_round_aux prec emax s (Zpos (Pos.iter xO m n)) e loc_Exact
  = S754_finite s m (e + Zpos n).
Proof.
  intros Hd He Hn. rewrite binary_round_aux_eq, shr_fexp_exact by lia.
  cbn [shr_m loc_of_shr_record round_nearest_even].
  apply finish_normal; lia.
Qed.

Lemma binary_round_aux_53 (s : bool) (m : positive) (e : Z) :
  Zpos (digits2_pos m) = 53 -> -1000 <= e <= 900 ->
  binary_round_aux prec emax s (Zpos m) e loc_Exact = S754_finite s m e.
Proof.
  intros Hd He. rewrite binary_round_aux_eq, shr_fexp_53 by lia.
  rewrite shr_m_record_of_loc, loc_of_record_of_loc.
  cbn [round_nearest_even]. apply finish_normal; lia.
Qed.

Lemma round_up_located (m : Z) (l : location) (N D : Z) :
  0 < D -> located m l N D ->
  round_nearest_even m l = m + 1 -> (2 * m + 1) * D <= 2 * N.
Proof.
  intros HD. destruct l as [|[]]; cbn [round_nearest_even located];
    intros H; try destruct (Z.even m); intros Hr; lia.
Qed.

Lemma shr_m_shr_1 (q : positive) (l : location) :
  2 * shr_m (shr_1 (shr_record_of_loc (Zpos q) l)) <= Zpos q
  <= 2 * shr_m (shr_1 (shr_record_of_loc (Zpos q) l)) + 1.
Proof.
  destruct l as [|[]]; destruct q as [q|q|];
    cbn [shr_1 shr_record_of_loc shr_m]; lia.
Qed.

Lemma digits_53 (m : Z) :
  2 ^ 52 <= m < 2 ^ 53 -> exists p, m = Zpos p /\ digits p = 53.
Proof.
  intros H. destruct m as [|p|p]; try (simpl in H; lia).
  exists p. split; [reflexivity|]. now apply digits_unique.
Qed.

Lemma SFdiv_core_normal (ma mb : positive) (ea eb : Z) :
  digits ma = 53 -> digits mb = 53 ->
  -400 <= ea <= 400 -> -400 <= eb <= 400 ->
  SFdiv_core_binary prec emax (Zpos ma) ea (Zpos mb) eb
  = (Zpos ma * 2 ^ 53 / Zpos mb, ea - eb - 53,
     new_location (Zpos mb) ((Zpos ma * 2 ^ 53) mod Zpos mb)).
Proof.
  unfold digits. intros Ha Hb Hea Heb. unfold SFdiv_core_binary.
  cbn [Zdigits2]. rewrite Ha, Hb.
  replace (Z.min (fexp prec emax (53 + ea - (53 + eb))) (ea - eb))
    with (ea - eb - 53) by (unfold fexp, emin, prec, emax; lia).
  replace (ea - eb - (ea - eb - 53)) with 53 by lia.
  rewrite Z.shiftl_mul_pow2 by lia.
  unfold Z.div, Z.modulo.
  destruct (Z.div_eucl (Zpos ma * 2 ^ 53) (Zpos mb)) as [q r]. reflexivity.
Qed.

(** Division of two normal numbers: the quotient is a normal number
    within half a unit in the last place of the exact quotient. *)
Lemma SFdiv_normal (ma mb : positive) (ea eb : Z) :
  digits ma = 53 -> digits mb = 53 ->
  -400 <= ea <= 400 -> -400 <= eb <= 400 ->
  exists mv k,
    SFdiv prec emax (S754_finite false ma ea) (S754_finite false mb eb)
    = S754_finite false mv (ea - eb - k)
    /\ digits mv = 53
    /\ 52 <= k <= 53
    /\ 2 * Z.abs (Zpos mv * Zpos mb - Zpos ma * 2 ^ k) <= Zpos mb.
Proof.
  intros Ha Hb Hea Heb.
  pose proof (digits_bounds ma) as Hma. pose proof (digits_bounds mb) as Hmb.
  unfold digits in Ha, Hb. rewrite Ha in Hma. rewrite Hb in Hmb.
  change (2 ^ (53 - 1)) with 4503599627370496 in *.
  change (2 ^ 53) with 9007199254740992 in *.
  assert (Hsf : SFdiv prec emax (S754_finite false ma ea) (S754_finite false mb eb)
                = binary_round_aux prec emax false
                    (Zpos ma * 9007199254740992 / Zpos mb) (ea - eb - 53)
                    (new_location (Zpos mb)
                       ((Zpos ma * 9007199254740992) mod Zpos mb))).
  { cbn [SFdiv xorb]. now rewrite SFdiv_core_normal. }
  rewrite binary_round_aux_eq in Hsf.
  set (N := Zpos ma * 9007199254740992) in *.
  pose proof (Z.div_mod N (Zpos mb) ltac:(lia)) as Hdiv.
  pose proof (Z.mod_pos_bound N (Zpos mb) ltac:(lia)) as Hr.
  set (q := N / Zpos mb) in *. set (r := N mod Zpos mb) in *.
  assert (Hloc : located q (new_location (Zpos mb) r) N (Zpos mb)).
  { rewrite Hdiv, (Z.mul_comm (Zpos mb) q). now apply located_div. }
  assert (Hq : 4503599627370496 <= q < 18014398509481984) by (subst N; nia).
  clearbody q r.
  destruct q as [|qp|qp]; try lia.
  destruct (Z.ltb_spec (Zpos qp) 9007199254740992) as [Hlt|Hge].
  - (* the quotient has 53 digits *)
    assert (Hdq : Zpos (digits2_pos qp) = 53) by (apply digits_unique; simpl; lia).
    rewrite shr_fexp_53 in Hsf by (assumption || lia).
    rewrite shr_m_record_of_loc, loc_of_record_of_loc in Hsf.
    destruct (round_nearest_even_ok _ _ N (Zpos mb) ltac:(lia) Hloc)
      as [Herr Hm].
    assert (Hnc : round_nearest_even (Zpos qp) (new_location (Zpos mb) r)
                  < 9007199254740992).
    { destruct (Z.eq_dec (round_nearest_even (Zpos qp) (new_location (Zpos mb) r))
                  (Zpos qp + 1)) as [Hup|Hno]; [|lia].
      pose proof (round_up_located _ _ N (Zpos mb) ltac:(lia) Hloc Hup) as Hhi.
      destruct (Z.eq_dec (Zpos qp) 9007199254740991) as [Htop|Hlow]; [|lia].
      rewrite Htop in Hdiv, Hhi. subst N. lia. }
    destruct (digits_53 (round_nearest_even (Zpos qp) (new_location (Zpos mb) r))
                ltac:(simpl; lia)) as (mv & Hmv & Hdv).
    exists mv, 53. rewrite Hsf, Hmv, finish_normal by (assumption || lia).
    repeat split; try lia; assumption.
  - (* the quotient has 54 digits *)
    assert (Hdq : Zpos (digits2_pos qp) = 54) by (apply digits_unique; simpl; lia).
    rewrite shr_fexp_54 in Hsf by (assumption || lia).
    pose proof (located_shr_1 qp _ N (Zpos mb) ltac:(lia) Hloc) as Hloc'.
    pose proof (shr_m_shr_1 qp (new_location (Zpos mb) r)) as Hhalf.
    set (mrs := shr_1 (shr_record_of_loc (Zpos qp) (new_location (Zpos mb) r))) in *.
    destruct (round_nearest_even_ok _ _ N (2 * Zpos mb) ltac:(lia) Hloc')
      as [Herr Hm].
    assert (Hnc : round_nearest_even (shr_m mrs) (loc_of_shr_record mrs)
                  < 9007199254740992).
    { destruct (Z.eq_dec (round_nearest_even (shr_m mrs) (loc_of_shr_record mrs))
                  (shr_m mrs + 1)) as [Hup|Hno]; [|lia].
      pose proof (round_up_located _ _ N (2 * Zpos mb) ltac:(lia) Hloc' Hup)
        as Hhi.
      destruct (Z.eq_dec (shr_m mrs) 9007199254740991) as [Htop|Hlow]; [|lia].
      rewrite Htop in Hhi. subst N. lia. }
    destruct (digits_53 (round_nearest_even (shr_m mrs) (loc_of_shr_record mrs))
                ltac:(simpl; lia)) as (mv & Hmv & Hdv).
    exists mv, 52. rewrite Hsf, Hmv, finish_normal by (assumption || lia).
    replace (ea - eb - 53 + 1) with (ea - eb - 52) by lia.
    change (2 ^ 52) with 4503599627370496. subst N.
    repeat split; try lia; assumption.
Qed.

Lemma digits_pos (p : positive) : 1 <= digits p.
Proof. unfold digits. lia. Qed.

Lemma digits_le (p : positive) (k : Z) :
  0 <= k -> Zpos p < 2 ^ k -> digits p <= k.
Proof.
  intros Hk Hp. pose proof (digits_bounds p) as [Hlo _]. fold (digits p) in Hlo.
  pose proof (digits_pos p).
  assert (2 ^ (digits p - 1) < 2 ^ k) as Hlt by lia.
  apply Z.pow_lt_mono_r_iff in Hlt; lia.
Qed.

Lemma digits_mono (p q : positive) :
  (p <= q)%positive -> digits p <= digits q.
Proof.
  intros Hpq. pose proof (digits_bounds q) as [_ Hhi]. fold (digits q) in Hhi.
  apply digits_le; [pose proof (digits_pos q)|]; lia.
Qed.

(** An integer below [2^53] converts without rounding. *)
Lemma float_of_int_normal (p : positive) :
  Zpos p < 2 ^ 53 ->
  exists m,
    float_of_int (Zpos p) = inr (S754_finite false m (digits p - 53))
    /\ digits m = 53
    /\ Zpos m = Zpos p * 2 ^ (53 - digits p).
Proof.
  intros Hp. pose proof (digits_le p 53 ltac:(lia) Hp) as Hle.
  pose proof (digits_pos p) as Hge.
  unfold float_of_int, binary_normalize, binary_round, shl_align.
  rewrite Z.add_0_r. fold (digits p).
  replace (fexp prec emax (digits p)) with (digits p - 53)
    by (unfold fexp, emin, prec, emax; lia).
  rewrite Z.sub_0_r.
  destruct (digits p - 53) as [|d|d] eqn:Hd; try lia.
  - exists p. rewrite binary_round_aux_53 by (unfold digits in *; lia).
    repeat split; [lia|]. replace (53 - digits p) with 0 by lia. lia.
  - exists (Pos.iter xO p d).
    assert (Hdm : digits (Pos.iter xO p d) = 53).
    { unfold digits in *. rewrite digits_iter_xO. lia. }
    rewrite binary_round_aux_53 by (assumption || lia).
    repeat split; [assumption|]. rewrite iter_xO. f_equal. f_equal. lia.
Qed.

Lemma SFmul_100 (p m : positive) :
  100 * Zpos p < 2 ^ 53 ->
  digits m = 53 ->
  Zpos m = Zpos p * 2 ^ (53 - digits p) ->
  exists ma,
    SFmul prec emax f100 (S754_finite false m (digits p - 53))
    = S754_finite false ma (digits (100 * p) - 53)
    /\ digits ma = 53
    /\ Zpos ma = 100 * Zpos p * 2 ^ (53 - digits (100 * p)).
Proof.
  intros Hp Hdm Hm.
  destruct (float_of_int_normal (100 * p)) as (ma & _ & Hda & Hma);
    [exact Hp|].
  exists ma. split; [|split; [exact Hda|now rewrite Hma]].
  pose proof (digits_le (100 * p) 53 ltac:(lia) Hp) as Hle.
  pose proof (digits_mono p (100 * p) ltac:(lia)) as Hmono.
  pose proof (digits_pos p) as Hge.
  set (Da := digits (100 * p)) in *. set (Dp := digits p) in *.
  cbn [SFmul f100 xorb].
  assert (Hn : 0 < 46 + Da - Dp) by lia.
  destruct (46 + Da - Dp) as [|n|n] eqn:Hnp; try lia.
  assert (Hprod : (7036874417766400 * m)%positive = Pos.iter xO ma n).
  { apply Pos2Z.inj. rewrite Pos2Z.inj_mul, iter_xO, Hm, Hma, <- Hnp.
    rewrite Pos2Z.inj_mul.
    change (Zpos 7036874417766400) with (100 * 2 ^ 46).
    change (Zpos 100) with 100.
    replace (53 - Dp) with (53 - Da + (Da - Dp)) by lia.
    replace (46 + Da - Dp) with (46 + (Da - Dp)) by lia.
    rewrite !Z.pow_add_r by lia. ring. }
  rewrite Hprod, binary_round_aux_exact by (assumption || lia).
  f_equal. lia.
Qed.

(** [100.0 * num / den] on counters that convert exactly. *)
Lemma percent_normal (num den : positive) :
  100 * Zpos num < 2 ^ 53 -> Zpos den < 2 ^ 53 ->
  exists m e,
    percent (Zpos num) (Zpos den) = inr (S754_finite false m e)
    /\ digits m = 53
    /\ -105 <= e <= 0
    /\ 2 * Z.abs (Zpos m * Zpos den - 100 * Zpos num * 2 ^ (- e))
       <= Zpos den.
Proof.
  intros Hnum Hden.
  destruct (float_of_int_normal num ltac:(lia)) as (mn & Hfn & Hdn & Hmn).
  destruct (SFmul_100 num mn Hnum Hdn Hmn) as (ma & Hmul & Hda & Hma).
  destruct (float_of_int_normal den Hden) as (mb & Hfb & Hdb & Hmb).
  pose proof (digits_le (100 * num) 53 ltac:(lia) Hnum) as HDa.
  pose proof (digits_pos (100 * num)) as HDa'.
  pose proof (digits_le den 53 ltac:(lia) Hden) as HDb.
  pose proof (digits_pos den) as HDb'.
  set (Da := digits (100 * num)) in *. set (Db := digits den) in *.
  destruct (SFdiv_normal ma mb (Da - 53) (Db - 53) Hda Hdb
              ltac:(lia) ltac:(lia)) as (mv & k & Hdiv & Hdv & Hk & Herr).
  exists mv, (Da - 53 - (Db - 53) - k).
  split.
  { unfold percent, float_mul_int, float_div_int.
    rewrite Hfn, Hmul, Hfb. cbn [is_zero]. now rewrite Hdiv. }
  split; [exact Hdv|]. split; [lia|].
  replace (- (Da - 53 - (Db - 53) - k)) with (k + Db - Da) by lia.
  set (c := 2 ^ (53 - Db)) in *.
  assert (Hc : 0 < c) by (apply Z.pow_pos_nonneg; lia).
  assert (Hscale :
            Zpos mv * Zpos mb - Zpos ma * 2 ^ k
            = (Zpos mv * Zpos den - 100 * Zpos num * 2 ^ (k + Db - Da)) * c).
  { rewrite Hmb, Hma. fold c.
    replace (100 * Zpos num * 2 ^ (53 - Da) * 2 ^ k)
      with (100 * Zpos num * 2 ^ (k + Db - Da) * c); [ring|].
    unfold c. rewrite <- !Z.mul_assoc, <- !Z.pow_add_r by lia.
    do 3 f_equal. lia. }
  rewrite Hscale, Z.abs_mul, (Z.abs_eq c), Hmb in Herr by lia. fold c in Herr.
  apply (Z.mul_le_mono_pos_r _ _ c Hc). lia.
Qed.

Lemma two_power_neg (e : Z) :
  e <= 0 -> (2 ^ e == 1 # Z.to_pos (2 ^ (- e)))%Q.
Proof.
  intros He. replace e with (- (- e)) at 1 by lia.
  rewrite Qpower_opp.
  change 2%Q with (inject_Z 2). rewrite <- Zpower_Qpower by lia.
  assert (0 < 2 ^ (- e)) by (apply Z.pow_pos_nonneg; lia).
  destruct (2 ^ (- e)) as [|t|t]; try lia. reflexivity.
Qed.

Lemma close_fractions (m a : Z) (t b : positive) :
  2 * Z.abs (m * Zpos b - a * Zpos t) <= Zpos b ->
  (Qabs ((m # t) - (a # b)) <= (1 # t) * (1 # 2))%Q.
Proof.
  intros H. apply Qabs_Qle_condition.
  unfold Qle, Qminus, Qplus, Qopp, Qmult. cbn [Qnum Qden].
  rewrite !Pos2Z.inj_mul. split; nia.
Qed.

Lemma half_ulp (m : positive) (e a : Z) (b : positive) :
  e <= 0 ->
  2 * Z.abs (Zpos m * Zpos b - a * 2 ^ (- e)) <= Zpos b ->
  (Qabs (inject_Z (Zpos m) * 2 ^ e - (a # b)) <= 2 ^ e * (1 # 2))%Q.
Proof.
  intros He H. rewrite (two_power_neg e He).
  assert (0 < 2 ^ (- e)) as Ht by (apply Z.pow_pos_nonneg; lia).
  destruct (2 ^ (- e)) as [|t|t] eqn:Et; try lia. cbn [Z.to_pos].
  assert (Hm : (inject_Z (Zpos m) * (1 # t) == Zpos m # t)%Q).
  { unfold Qeq, Qmult, inject_Z. cbn [Qnum Qden]. lia. }
  rewrite Hm. now apply close_fractions.
Qed.

Lemma valid_binary_normal (m : positive) (e : Z) :
  digits m = 53 -> -1000 <= e <= 900 ->
  valid_binary prec emax (S754_finite false m e) = true.
Proof.
  unfold digits. intros Hd He.
  cbn [valid_binary]. unfold bounded, canonical_mantissa. rewrite Hd.
  apply andb_true_intro. split.
  - apply Z.eqb_eq. unfold fexp, emin, prec, emax. lia.
  - apply Z.leb_le. unfold emax, prec. lia.
Qed.

Lemma percent_of_zero (den : positive) :
  Zpos den < 2 ^ 53 -> percent 0 (Zpos den) = inr (S754_zero false).
Proof.
  intros Hden. destruct (float_of_int_normal den Hden) as (mb & Hfb & _).
  unfold percent, float_mul_int, float_div_int.
  change (float_of_int 0) with (inr (S754_zero false) : result float).
  cbn [SFmul f100 xorb]. now rewrite Hfb.
Qed.

Lemma percent_nearest (num den : Z) :
  0 <= num -> 100 * num < 2 ^ 53 -> 0 < den < 2 ^ 53 ->
  returns_nearest (percent num den) (100 * num) den.
Proof.
  intros Hn Hn' Hd. unfold returns_nearest.
  destruct den as [|den|den]; try lia. cbn [Z.to_pos].
  destruct num as [|num|num]; try lia.
  - exists (S754_zero false), 0%Q. rewrite percent_of_zero by lia.
    repeat split. cbn [ulp]. apply Qabs_Qle_condition.
    unfold Qle; cbn; lia.
  - destruct (percent_normal num den Hn' ltac:(lia))
      as (m & e & Hp & Hdm & He & Herr).
    exists (S754_finite false m e), (inject_Z (Zpos m) * 2 ^ e)%Q.
    split; [exact Hp|]. split; [apply valid_binary_normal; lia|].
    split; [reflexivity|]. cbn [ulp].
    apply half_ulp; [lia|exact Herr].
Qed.

(** C8, as stated, fails: for the counters of the example the share of
    yes votes is the float [4691249611844267 * 2^-46], which is not the
    rational 200/3; and with positive denominators a large enough numerator
    gives the float infinity. *)
Lemma yes_percent_is_not_exact :
  ~ returns_exactly (ik_info.get_yes_percent uik1) (200 # 3)
  /\ 0 < total_voters overfull
  /\ 0 < found_ballots overfull
  /\ ik_info.get_turnout_percent overfull = inr (S754_infinity false).
Proof.
  split; [|repeat split; vm_compute; reflexivity].
  intros (v & q & Hv & Hq & Heq).
  vm_compute in Hv. injection Hv as <-.
  cbn [float_value cond_Zopp] in Hq. injection Hq as <-.
  vm_compute in Heq. discriminate Heq.
Qed.

(** C8, amended: for a node whose counters are non-negative and below
    [2^53 / 100] and whose [total_voters] and [found_ballots] are positive,
    each of the four percentages is returned as a double in canonical form
    at most half a unit in the last place away from [100 * numerator /
    denominator]: the nearest double, not the quotient itself.  For
    [total_voters = 100], [given_ballots = found_ballots = 60],
    [yes_votes = 40], [no_votes = 15], [spoiled_ballots = 5] the turnout is
    exactly 60 and the share of no votes exactly 25; the shares of yes votes
    and of spoiled ballots are the doubles [4691249611844267 * 2^-46]
    (66.66666666666667) and [4691249611844267 * 2^-49]
    (8.333333333333334). *)
Theorem percent_nearest_double :
  (forall self,
     (forall f, 0 <= getattr self f /\ 100 * getattr self f < 2 ^ 53) ->
     0 < total_voters self ->
     0 < found_ballots self ->
     returns_nearest (ik_info.get_turnout_percent self)
       (100 * given_ballots self) (total_voters self)
     /\ returns_nearest (ik_info.get_yes_percent self)
          (100 * yes_votes self) (found_ballots self)
     /\ returns_nearest (ik_info.get_no_percent self)
          (100 * no_votes self) (found_ballots self)
     /\ returns_nearest (ik_info.get_spoiled_percent self)
          (100 * spoiled_ballots self) (found_ballots self))
  /\ returns_exactly (ik_info.get_turnout_percent uik1) 60
  /\ ik_info.get_yes_percent uik1
     = inr (S754_finite false 4691249611844267 (-46))
  /\ returns_exactly (ik_info.get_no_percent uik1) 25
  /\ ik_info.get_spoiled_percent uik1
     = inr (S754_finite false 4691249611844267 (-49)).
Proof.
  split.
  - intros self Hc Ht Hf.
    pose proof (Hc f_total_voters) as Htv.
    pose proof (Hc f_given_ballots) as Hgb.
    pose proof (Hc f_found_ballots) as Hfb.
    pose proof (Hc f_spoiled_ballots) as Hsb.
    pose proof (Hc f_yes_votes) as Hyv.
    pose proof (Hc f_no_votes) as Hnv.
    cbn [getattr] in *.
    unfold ik_info.get_turnout_percent, ik_info.get_yes_percent,
      ik_info.get_no_percent, ik_info.get_spoiled_percent.
    repeat split; apply percent_nearest; lia.
  - split; [|split; [reflexivity|split; [|reflexivity]]].
    + eexists _, _. split; [vm_compute; reflexivity|].
      split; [reflexivity|]. vm_compute. reflexivity.
    + eexists _, _. split; [vm_compute; reflexivity|].
      split; [reflexivity|]. vm_compute. reflexivity.
Qed.

Lemma percent_nearest_double_witness :
  returns_nearest (ik_info.get_turnout_percent uik1) (100 * 60) 100
  /\ returns_nearest (ik_info.get_yes_percent uik1) (100 * 40) 60
  /\ returns_nearest (ik_info.get_no_percent uik1) (100 * 15) 60
  /\ returns_nearest (ik_info.get_spoiled_percent uik1) (100 * 5) 60.
Proof.
  apply (proj1 percent_nearest_double uik1).
  - intros f. destruct f; cbn; lia.
  - reflexivity.
  - reflexivity.
Defined.

(** ** More on the class: counting, lookup, building *)

Lemma length_setitem {V : Type} (d : list (string * V)) (k : string) (v : V) :
  List.length (setitem d k v)
  = if contains d k then List.length d else S (List.length d).
Proof.
  unfold contains. induction d as [|[k0 v0] d IH]; simpl; [reflexivity|].
  destruct (String.eqb k0 k); simpl; [reflexivity|].
  rewrite IH. now destruct (getitem d k).
Qed.

Lemma number_of_iks_dict (self : IkInfo) :
  ik_info.get_number_of_iks self = Z.of_nat (List.length (dict_of self)).
Proof.
  unfold ik_info.get_number_of_iks, dict_of.
  now destruct (dependent_iks self) as [[|kv d]|].
Qed.

(** X1: [get_number_of_iks] is the number of direct children (zero on a
    leaf, although [get_iks] yields one node there); attaching a dependent
    under a new name raises it by one, attaching under a name already held
    leaves it as it was. *)
Theorem get_number_of_iks_counts (self c : IkInfo) :
  ik_info.get_number_of_iks self = Z.of_nat (List.length (children self))
  /\ (children self <> [] ->
      ik_info.get_number_of_iks self
      = Z.of_nat (List.length (ik_info.get_iks false self)))
  /\ (contains (dict_of self) (name c) = false ->
      ik_info.get_number_of_iks (ik_info.add_ik_info self c)
      = ik_info.get_number_of_iks self + 1)
  /\ (contains (dict_of self) (name c) = true ->
      ik_info.get_number_of_iks (ik_info.add_ik_info self c)
      = ik_info.get_number_of_iks self).
Proof.
  assert (Hn : ik_info.get_number_of_iks self
               = Z.of_nat (List.length (children self))).
  { rewrite number_of_iks_dict, children_dict_of. unfold values.
    now rewrite length_map. }
  split; [exact Hn|]. split; [|split].
  - intros Hne. rewrite Hn, get_iks_unfold. unfold is_leaf.
    destruct (children self) as [|x l]; [now destruct Hne|].
    now rewrite flat_map_singleton, map_id.
  - intros Hc. rewrite !number_of_iks_dict, add_ik_info_dict, length_setitem, Hc.
    lia.
  - intros Hc. rewrite !number_of_iks_dict, add_ik_info_dict, length_setitem, Hc.
    reflexivity.
Qed.

Lemma get_number_of_iks_counts_witness :
  ik_info.get_number_of_iks tik
  = Z.of_nat (List.length (ik_info.get_iks false tik))
  /\ ik_info.get_number_of_iks (ik_info.add_ik_info tik precinct)
     = ik_info.get_number_of_iks tik + 1
  /\ ik_info.get_number_of_iks (ik_info.add_ik_info tik uik2)
     = ik_info.get_number_of_iks tik.
Proof.
  split; [|split].
  - apply (proj1 (proj2 (get_number_of_iks_counts tik uik1))). discriminate.
  - apply (proj1 (proj2 (proj2 (get_number_of_iks_counts tik precinct)))).
    reflexivity.
  - apply (proj2 (proj2 (proj2 (get_number_of_iks_counts tik uik2)))).
    reflexivity.
Defined.

Lemma search_keys_cases (ks : list string) (ik_name : string) :
  ik_info.search_keys ks ik_name
  = match ks with
    | [] => inr None
    | _ :: _ =>
        inl (AttributeError "'str' object has no attribute 'get_ik_by_name'")
    end.
Proof. now destruct ks. Qed.

(** X2: what the lookup can answer.  It returns the node itself when the
    name is its own, else the direct child stored under the name; for any
    other name it raises on a node without dictionary ([TypeError]) or with
    a non-empty one ([AttributeError]), and answers [None] only on an empty
    dictionary.  It never returns a node from below the direct children. *)
Theorem get_ik_by_name_cases (self : IkInfo) (ik_name : string) :
  (name self = ik_name ->
   ik_info.get_ik_by_name self ik_name = inr (Some self))
  /\ (name self <> ik_name ->
      match dependent_iks self with
      | None =>
          ik_info.get_ik_by_name self ik_name
          = inl (TypeError "argument of type 'NoneType' is not iterable")
      | Some d =>
          match getitem d ik_name with
          | Some child =>
              ik_info.get_ik_by_name self ik_name = inr (Some child)
          | None =>
              match d with
              | [] => ik_info.get_ik_by_name self ik_name = inr None
              | _ :: _ =>
                  ik_info.get_ik_by_name self ik_name
                  = inl (AttributeError
                           "'str' object has no attribute 'get_ik_by_name'")
              end
          end
      end)
  /\ (forall r, ik_info.get_ik_by_name self ik_name = inr (Some r) ->
                r = self \/ In r (children self)).
Proof.
  assert (Hin : forall (d : list (string * IkInfo)) k v,
            getitem d k = Some v -> In v (values d)).
  { induction d as [|[k0 v0] d IH]; simpl; [discriminate|].
    intros k v. destruct (String.eqb k0 k).
    - intros [= ->]. now left.
    - intros H. right. eapply IH, H. }
  unfold ik_info.get_ik_by_name. split; [|split].
  - intros <-. now rewrite String.eqb_refl.
  - intros Hne. destruct (String.eqb_spec (name self) ik_name); [contradiction|].
    destruct (dependent_iks self) as [d|]; [|reflexivity].
    unfold contains. destruct (getitem d ik_name); [reflexivity|].
    rewrite search_keys_cases. now destruct d.
  - intros r. destruct (String.eqb (name self) ik_name).
    + intros [= <-]. now left.
    + unfold children. destruct (dependent_iks self) as [d|]; [|discriminate].
      unfold contains. destruct (getitem d ik_name) as [c|] eqn:Hg.
      * intros [= <-]. right. eapply Hin, Hg.
      * rewrite search_keys_cases. destruct (keys d); discriminate.
Qed.

Lemma get_ik_by_name_cases_witness :
  ik_info.get_ik_by_name region "R" = inr (Some region)
  /\ ik_info.get_ik_by_name precinct "Z"
     = inl (TypeError "argument of type 'NoneType' is not iterable")
  /\ (commission = region \/ In commission (children region)).
Proof.
  split; [|split].
  - apply (proj1 (get_ik_by_name_cases region "R")). reflexivity.
  - apply (proj1 (proj2 (get_ik_by_name_cases precinct "Z"))). discriminate.
  - apply (proj2 (proj2 (get_ik_by_name_cases region "A"))). reflexivity.
Defined.

Lemma getitem_setitem {V : Type} (d : list (string * V)) (k k' : string)
    (v : V) :
  getitem (setitem d k v) k' = if String.eqb k k' then Some v else getitem d k'.
Proof.
  induction d as [|[k0 v0] d IH]; simpl.
  - reflexivity.
  - destruct (String.eqb_spec k0 k) as [->|Hne]; simpl.
    + now destruct (String.eqb k k').
    + rewrite IH. destruct (String.eqb_spec k k') as [<-|Hne'];
        [|reflexivity].
      now destruct (String.eqb_spec k0 k).
Qed.

(** X3: attaching then looking up.  A dependent attached under a name
    other than the parent's is what the lookup of that name returns, and
    the dependents held before under other names are still found; a
    dependent that bears the parent's own name is hidden: the lookup
    returns the parent. *)
Theorem add_ik_info_then_lookup (p c : IkInfo) :
  (name c <> name p ->
   ik_info.get_ik_by_name (ik_info.add_ik_info p c) (name c)
   = inr (Some c))
  /\ (forall k old,
        k <> name c -> k <> name p ->
        getitem (dict_of p) k = Some old ->
        ik_info.get_ik_by_name (ik_info.add_ik_info p c) k = inr (Some old))
  /\ (name c = name p ->
      ik_info.get_ik_by_name (ik_info.add_ik_info p c) (name c)
      = inr (Some (ik_info.add_ik_info p c))).
Proof.
  assert (Hd : dependent_iks (ik_info.add_ik_info p c)
               = Some (setitem (dict_of p) (name c) c)).
  { pose proof (add_ik_info_dict p c) as H. unfold dict_of in H at 1.
    unfold ik_info.add_ik_info in *. cbn [dependent_iks] in *. now rewrite H. }
  split; [|split].
  - intros Hne. unfold ik_info.get_ik_by_name. rewrite Hd.
    cbn [name ik_info.add_ik_info].
    destruct (String.eqb_spec (name p) (name c)); [congruence|].
    unfold contains. now rewrite getitem_setitem, String.eqb_refl.
  - intros k old Hk Hp Hold. unfold ik_info.get_ik_by_name. rewrite Hd.
    cbn [name ik_info.add_ik_info].
    destruct (String.eqb_spec (name p) k); [congruence|].
    unfold contains. rewrite getitem_setitem.
    destruct (String.eqb_spec (name c) k); [congruence|]. now rewrite Hold.
  - intros Heq. unfold ik_info.get_ik_by_name at 1.
    cbn [name ik_info.add_ik_info]. now rewrite Heq, String.eqb_refl.
Qed.

Lemma add_ik_info_then_lookup_witness :
  ik_info.get_ik_by_name (ik_info.add_ik_info tik precinct) "B"
  = inr (Some precinct)
  /\ ik_info.get_ik_by_name (ik_info.add_ik_info tik precinct) "UIK 2"
     = inr (Some uik2)
  /\ ik_info.get_ik_by_name (ik_info.add_ik_info dup1 dup2) "A"
     = inr (Some (ik_info.add_ik_info dup1 dup2)).
Proof.
  split; [|split].
  - apply (proj1 (add_ik_info_then_lookup tik precinct)). discriminate.
  - apply (proj1 (proj2 (add_ik_info_then_lookup tik precinct)));
      [discriminate|discriminate|reflexivity].
  - apply (proj2 (proj2 (add_ik_info_then_lookup dup1 dup2))). reflexivity.
Defined.

(** ** Building and validating *)

Lemma fold_add_getattr (cs : list IkInfo) (p : IkInfo) (f : field) :
  getattr (fold_left ik_info.add_ik_info cs p) f
  = getattr p f + sum_over f cs.
Proof.
  revert p. induction cs as [|c cs IH]; intros p; cbn [fold_left].
  - unfold sum_over; simpl; lia.
  - rewrite IH, add_ik_info_getattr.
    change (sum_over f (c :: cs)) with (getattr c f + sum_over f cs). lia.
Qed.

Lemma sum_over_perm (f : field) (l l' : list IkInfo) :
  Permutation l l' -> sum_over f l = sum_over f l'.
Proof.
  unfold sum_over. induction 1; simpl; lia.
Qed.

(** X5: the counters of a parent depend neither on the order in which its
    dependents were attached nor on their names: attaching the same nodes
    in another order gives the same six counters. *)
Theorem add_ik_info_order_irrelevant (p : IkInfo) (cs cs' : list IkInfo) :
  Permutation cs cs' ->
  counters (fold_left ik_info.add_ik_info cs p)
  = counters (fold_left ik_info.add_ik_info cs' p).
Proof.
  intros Hp. unfold counters.
  pose proof (fun f => fold_add_getattr cs p f) as H.
  pose proof (fun f => fold_add_getattr cs' p f) as H'.
  pose proof (H f_total_voters) as H1; pose proof (H' f_total_voters) as H1'.
  pose proof (H f_given_ballots) as H2; pose proof (H' f_given_ballots) as H2'.
  pose proof (H f_found_ballots) as H3; pose proof (H' f_found_ballots) as H3'.
  pose proof (H f_spoiled_ballots) as H4;
    pose proof (H' f_spoiled_ballots) as H4'.
  pose proof (H f_yes_votes) as H5; pose proof (H' f_yes_votes) as H5'.
  pose proof (H f_no_votes) as H6; pose proof (H' f_no_votes) as H6'.
  cbn [getattr] in *.
  rewrite H1, H2, H3, H4, H5, H6, H1', H2', H3', H4', H5', H6'.
  now rewrite !(fun f => sum_over_perm f cs cs' Hp).
Qed.

Lemma add_ik_info_order_irrelevant_witness :
  counters (fold_left ik_info.add_ik_info [uik1; uik2; uik3]
              (ik_info.init "TIK" true))
  = counters (fold_left ik_info.add_ik_info [uik3; uik1; uik2]
                (ik_info.init "TIK" true)).
Proof.
  apply add_ik_info_order_irrelevant.
  apply Permutation_sym, (Permutation_cons_app [uik1; uik2] []).
  apply Permutation_refl.
Defined.

Lemma sum_over_invariants (cs : list IkInfo) :
  Forall (fun c => invariant1 c /\ invariant2 c /\ invariant3 c) cs ->
  sum_over f_found_ballots cs
  = sum_over f_yes_votes cs + sum_over f_no_votes cs
    + sum_over f_spoiled_ballots cs
  /\ sum_over f_given_ballots cs >= sum_over f_found_ballots cs
  /\ sum_over f_total_voters cs >= sum_over f_given_ballots cs.
Proof.
  unfold sum_over, invariant1, invariant2, invariant3.
  induction 1 as [|c cs (H1 & H2 & H3) _ IH];
    cbn [map fold_right getattr] in *; lia.
Qed.

Lemma validate_ok_own (t : IkInfo) :
  fst (ik_info.validate t) = inr tt ->
  invariant1 t /\ invariant2 t /\ invariant3 t.
Proof.
  rewrite validate_result. intros H. apply own_checks_ok.
  destruct (own_checks t) as [e|[]]; [discriminate|reflexivity].
Qed.

Lemma fold_add_validates (nm : string) (has_dependent : bool)
    (cs : list IkInfo) :
  NoDup (map name cs) ->
  Forall (fun c => fst (ik_info.validate c) = inr tt) cs ->
  fst (ik_info.validate
         (fold_left ik_info.add_ik_info cs (ik_info.init nm has_dependent)))
  = inr tt.
Proof.
  intros Hnd Hcs.
  set (p := fold_left ik_info.add_ik_info cs (ik_info.init nm has_dependent)).
  destruct (fold_add_ik_info cs [] (ik_info.init nm has_dependent))
    as [Hd _]; [now destruct has_dependent|exact Hnd|].
  fold p in Hd. cbn [app] in Hd.
  assert (Hf : forall f, getattr p f = sum_over f cs).
  { intros f. unfold p. rewrite fold_add_getattr. now destruct f. }
  assert (Hinv : Forall (fun c => invariant1 c /\ invariant2 c /\ invariant3 c)
                   cs).
  { eapply Forall_impl; [|exact Hcs]. intros c. apply validate_ok_own. }
  destruct (sum_over_invariants cs Hinv) as (S1 & S2 & S3).
  rewrite validate_result.
  assert (Hown : own_checks p = inr tt).
  { apply own_checks_ok. unfold invariant1, invariant2, invariant3.
    pose proof (Hf f_total_voters). pose proof (Hf f_given_ballots).
    pose proof (Hf f_found_ballots). pose proof (Hf f_spoiled_ballots).
    pose proof (Hf f_yes_votes). pose proof (Hf f_no_votes).
    cbn [getattr] in *. lia. }
  rewrite Hown. unfold dict_of in Hd.
  destruct (dependent_iks p) as [[|kv d]|]; try reflexivity.
  rewrite Hd.
  assert (Hfe : first_error
                  (map (fun kv0 => fst (ik_info.validate (snd kv0)))
                     (map entry cs)) = inr tt).
  { apply first_error_ok. rewrite map_map. cbn [entry snd].
    now apply Forall_map. }
  rewrite Hfe. apply check_fields_ok. intros f _.
  rewrite values_entries. apply Hf.
Qed.

(** X4: a node created empty and filled by [add_ik_info] with dependents
    of pairwise distinct names, each of which [validate] accepts, is
    accepted by [validate]: the invariants of the parent follow from those
    of the dependents. *)
Theorem built_tree_validates (nm : string) (has_dependent : bool)
    (cs : list IkInfo) :
  NoDup (map name cs) ->
  Forall (fun c => fst (ik_info.validate c) = inr tt) cs ->
  fst (ik_info.validate
         (fold_left ik_info.add_ik_info cs (ik_info.init nm has_dependent)))
  = inr tt.
Proof. exact (fold_add_validates nm has_dependent cs). Qed.

Lemma built_tree_validates_witness :
  fst (ik_info.validate
         (fold_left ik_info.add_ik_info [uik1; uik2; uik3]
            (ik_info.init "TIK" true)))
  = inr tt.
Proof.
  apply built_tree_validates.
  - repeat constructor; cbn; intuition discriminate.
  - repeat constructor.
Defined.

Lemma validate_ok_sums (t : IkInfo) :
  fst (ik_info.validate t) = inr tt ->
  children t <> [] ->
  forall f, getattr t f = sum_over f (children t).
Proof.
  rewrite validate_result. unfold children.
  destruct (own_checks t) as [e|[]]; [discriminate|].
  destruct (dependent_iks t) as [[|kv d]|]; try (now intros _ []).
  destruct (first_error _) as [e|[]]; [discriminate|].
  intros H _ f. eapply check_fields_ok in H; [exact H|].
  apply all_fields_described.
Qed.

Lemma sum_over_setitem (f : field) (d : list (string * IkInfo)) (k : string)
    (c old : IkInfo) :
  getitem d k = Some old ->
  sum_over f (values (setitem d k c))
  = sum_over f (values d) - getattr old f + getattr c f.
Proof.
  unfold sum_over, values.
  induction d as [|[k0 v0] d IH]; simpl; [discriminate|].
  destruct (String.eqb k0 k); simpl.
  - intros [= ->]. lia.
  - intros H. rewrite (IH H). lia.
Qed.

(** X6: double counting does not pass validation.  When a parent whose
    counters are the sums over its dependents is given a second dependent
    under a name it already holds, and the dependent it replaces had a
    non-zero counter, [validate] raises on the result. *)
Theorem duplicate_attach_fails_validation (p c old : IkInfo)
    (d : list (string * IkInfo)) (f : field) :
  dependent_iks p = Some d ->
  getitem d (name c) = Some old ->
  (forall g, getattr p g = sum_over g (values d)) ->
  getattr old f <> 0 ->
  exists e, fst (ik_info.validate (ik_info.add_ik_info p c)) = inl e.
Proof.
  intros Hd Hold Hsum Hnz.
  destruct (fst (ik_info.validate (ik_info.add_ik_info p c)))
    as [e|[]] eqn:Hv; [now exists e|exfalso].
  assert (Hdict : dict_of (ik_info.add_ik_info p c) = setitem d (name c) c).
  { rewrite add_ik_info_dict. unfold dict_of. now rewrite Hd. }
  assert (Hne : children (ik_info.add_ik_info p c) <> []).
  { rewrite children_dict_of, Hdict. destruct d as [|[k0 v0] d]; simpl;
      [discriminate|]. now destruct (String.eqb k0 (name c)). }
  pose proof (validate_ok_sums _ Hv Hne f) as Hf.
  rewrite children_dict_of, Hdict, (sum_over_setitem f d _ c old Hold) in Hf.
  rewrite add_ik_info_getattr, Hsum in Hf. lia.
Qed.

Lemma duplicate_attach_fails_validation_witness :
  exists e, fst (ik_info.validate (ik_info.add_ik_info holds_dup1 dup2))
            = inl e.
Proof.
  apply (duplicate_attach_fails_validation holds_dup1 dup2 dup1
           [("A", dup1)] f_total_voters).
  - reflexivity.
  - reflexivity.
  - intros g. now destruct g.
  - discriminate.
Defined.

(** ** The adapter *)

Lemma getattr_setattr (ik : IkInfo) (f g : field) (v : Z) :
  getattr (setattr ik f v) g = if field_eqb f g then v else getattr ik g.
Proof. destruct f, g; reflexivity. Qed.

Lemma name_setattr (ik : IkInfo) (f : field) (v : Z) :
  name (setattr ik f v) = name ik.
Proof. now destruct f. Qed.

Lemma dependent_iks_setattr (ik : IkInfo) (f : field) (v : Z) :
  dependent_iks (setattr ik f v) = dependent_iks ik.
Proof. now destruct f. Qed.

Lemma same_shape_refl (d : list (string * IkInfo)) : same_shape d d.
Proof. induction d; constructor; auto. Qed.

Lemma same_shape_trans (d1 d2 d3 : list (string * IkInfo)) :
  same_shape d1 d2 -> same_shape d2 d3 -> same_shape d1 d3.
Proof.
  unfold same_shape. intros H. revert d3.
  induction H as [|x y l l' (Hk & Hn & Hd) _ IH]; intros d3 H3;
    inversion H3 as [|y' z l2 l3 (Hk' & Hn' & Hd') Hrest]; subst;
    constructor; [|now apply IH].
  repeat split; congruence.
Qed.

Lemma same_shape_keys (d d' : list (string * IkInfo)) :
  same_shape d d' -> keys d = keys d'.
Proof.
  unfold keys. induction 1 as [|x y l l' (Hk & _) _ IH]; simpl; congruence.
Qed.

Section ReadLinesFacts.
Variable py_int : string -> py_result Z.
Variable table : list (string * field).

Lemma set_dependents_shape (line : row) (f : field)
    (d d' : list (string * IkInfo)) :
  set_dependents py_int line f d = inr d' -> same_shape d d'.
Proof.
  revert d'. induction d as [|[k c] d IH]; intros d'; cbn [set_dependents].
  - intros [= <-]. constructor.
  - destruct (row_get line k) as [e|cl]; [discriminate|].
    destruct (int_cell py_int cl) as [e|v]; [discriminate|].
    destruct (set_dependents py_int line f d) as [e|rest]; [discriminate|].
    intros [= <-]. constructor; [|now apply IH].
    cbn [fst snd]. now rewrite name_setattr, dependent_iks_setattr.
Qed.

Lemma read_line_shape (pos : string) (t t' : IkInfo) (line : row) :
  read_line py_int table pos t line = inr t' ->
  name t' = name t
  /\ (dependent_iks t = None -> dependent_iks t' = None)
  /\ forall d, dependent_iks t = Some d ->
               exists d', dependent_iks t' = Some d' /\ same_shape d d'.
Proof.
  unfold read_line.
  destruct (row_get line pos) as [e|[[|a s]|]]; try discriminate;
    try (intros [= <-]; split; [reflexivity|]; split; [auto|];
         intros d Hd; exists d; split; [exact Hd|apply same_shape_refl]).
  destruct (getitem table (String a s)) as [f|]; [|discriminate].
  destruct (row_get line total_column) as [e|c]; [discriminate|].
  destruct (int_cell py_int c) as [e|total]; [discriminate|].
  rewrite dependent_iks_setattr.
  destruct (dependent_iks t) as [d|] eqn:Hd; [|discriminate].
  destruct (set_dependents py_int line f d) as [e|d'] eqn:Hs; [discriminate|].
  intros [= <-]. cbn [name dependent_iks set_dependent_iks].
  rewrite name_setattr. split; [reflexivity|]. split; [discriminate|].
  intros d0 [= <-]. exists d'. split; [reflexivity|].
  eapply set_dependents_shape, Hs.
Qed.

Lemma read_lines_shape (pos : string) (lines : list row) (t t' : IkInfo)
    (d : list (string * IkInfo)) :
  read_lines py_int table pos t lines = inr t' ->
  dependent_iks t = Some d ->
  name t' = name t
  /\ exists d', dependent_iks t' = Some d' /\ same_shape d d'.
Proof.
  revert t d. induction lines as [|line lines IH]; intros t d;
    cbn [read_lines].
  - intros [= <-] Hd. split; [reflexivity|]. exists d. split; [exact Hd|].
    apply same_shape_refl.
  - destruct (read_line py_int table pos t line) as [e|t1] eqn:H1;
      [discriminate|].
    intros Hrest Hd.
    destruct (read_line_shape _ _ _ _ H1) as (Hn & _ & Hs).
    destruct (Hs d Hd) as (d1 & Hd1 & Hsh1).
    destruct (IH t1 d1 Hrest Hd1) as (Hn' & d' & Hd' & Hsh').
    split; [congruence|]. exists d'. split; [exact Hd'|].
    eapply same_shape_trans; eassumption.
Qed.
End ReadLinesFacts.

Lemma keys_setitem_fresh {V : Type} (d : list (string * V)) (k : string)
    (v : V) :
  keys (setitem d k v) = if contains d k then keys d else (keys d ++ [k])%list.
Proof.
  unfold keys, contains. induction d as [|[k0 v0] d IH]; simpl; [reflexivity|].
  destruct (String.eqb_spec k0 k) as [->|Hne]; simpl; [reflexivity|].
  rewrite IH. now destruct (getitem d k).
Qed.

Lemma contains_In {V : Type} (d : list (string * V)) (k : string) :
  contains d k = true <-> In k (keys d).
Proof.
  unfold contains, keys. induction d as [|[k0 v0] d IH]; simpl.
  - split; [discriminate|tauto].
  - destruct (String.eqb_spec k0 k) as [->|Hne].
    + split; auto.
    + rewrite IH. split; [auto|]. intros [H|H]; [contradiction|exact H].
Qed.

Lemma fresh_dependents_spec (uiks : list string) :
  NoDup (keys (fresh_dependents uiks))
  /\ (forall k, In k (keys (fresh_dependents uiks)) <-> In k uiks)
  /\ Forall leaf_named (fresh_dependents uiks)
  /\ (NoDup uiks -> keys (fresh_dependents uiks) = uiks).
Proof.
  unfold fresh_dependents.
  assert (H : forall d,
            NoDup (keys d) -> Forall leaf_named d ->
            let r := fold_left
                       (fun d uik => setitem d uik (MkIkInfo uik None 0 0 0 0 0 0))
                       uiks d in
            NoDup (keys r)
            /\ (forall k, In k (keys r) <-> In k (keys d) \/ In k uiks)
            /\ Forall leaf_named r
            /\ (NoDup (keys d ++ uiks) -> keys r = (keys d ++ uiks)%list)).
  { induction uiks as [|u uiks IH]; intros d Hnd Hl; cbn [fold_left].
    - split; [exact Hnd|]. split; [intros k; cbn; tauto|].
      split; [exact Hl|]. intros _. now rewrite app_nil_r.
    - set (d1 := setitem d u (MkIkInfo u None 0 0 0 0 0 0)).
      assert (Hk1 : keys d1
                    = if contains d u then keys d else (keys d ++ [u])%list)
        by apply keys_setitem_fresh.
      assert (Hnd1 : NoDup (keys d1)).
      { rewrite Hk1. destruct (contains d u) eqn:Hc; [exact Hnd|].
        apply NoDup_app; [exact Hnd|repeat constructor; now intros []|].
        intros k Hin [<-|[]]. apply contains_In in Hin. congruence. }
      assert (Hl1 : Forall leaf_named d1).
      { unfold d1. clear -Hl. induction d as [|[k0 v0] d IH]; cbn [setitem].
        - repeat constructor.
        - inversion Hl; subst. destruct (String.eqb k0 u);
            constructor; auto. reflexivity. }
      destruct (IH d1 Hnd1 Hl1) as (R1 & R2 & R3 & R4).
      split; [exact R1|]. split; [|split; [exact R3|]].
      + intros k. rewrite R2, Hk1. cbn [In].
        destruct (contains d u) eqn:Hc.
        * apply contains_In in Hc. split; [tauto|].
          intros [H|[<-|H]]; auto.
        * rewrite in_app_iff. cbn [In]. tauto.
      + intros Hall. rewrite R4.
        * rewrite Hk1. destruct (contains d u) eqn:Hc.
          -- apply contains_In in Hc. apply NoDup_remove_2 in Hall.
             exfalso. apply Hall, in_or_app. now left.
          -- now rewrite <- app_assoc.
        * rewrite Hk1. destruct (contains d u) eqn:Hc.
          -- apply contains_In in Hc. apply NoDup_remove_2 in Hall.
             exfalso. apply Hall, in_or_app. now left.
          -- now rewrite <- app_assoc. }
  destruct (H [] (NoDup_nil _) (Forall_nil _)) as (R1 & R2 & R3 & R4).
  split; [exact R1|]. split; [|split; [exact R3|exact R4]].
  intros k. rewrite R2. cbn. tauto.
Qed.

Lemma validate_ok_children (t : IkInfo) :
  fst (ik_info.validate t) = inr tt ->
  forall c, In c (children t) -> fst (ik_info.validate c) = inr tt.
Proof.
  rewrite validate_result. unfold children.
  destruct (own_checks t) as [e|[]]; [discriminate|].
  destruct (dependent_iks t) as [[|kv d]|]; try (now intros _ c []).
  destruct (first_error _) as [e|[]] eqn:Hfe; [discriminate|].
  intros _ c Hc. apply first_error_ok in Hfe.
  rewrite Forall_map, Forall_forall in Hfe.
  apply in_map_iff in Hc as (kv' & <- & Hin). now apply Hfe.
Qed.

Lemma validate_ok_consistent (t : IkInfo) :
  fst (ik_info.validate t) = inr tt -> consistent t.
Proof.
  induction t as [t IH] using IkInfo_children_ind. intros Hok.
  apply consistent_unfold. split.
  - destruct (validate_ok_own t Hok) as (H1 & H2 & H3).
    repeat split; auto. intros Hne f. now apply validate_ok_sums.
  - intros c Hc. apply IH; [exact Hc|]. now apply (validate_ok_children t).
Qed.

Lemma extract_ik_info_steps (py_int : string -> py_result Z) (nm : string)
    (fieldnames : option (list string)) (lines : list row) (t : IkInfo) :
  process_spb.extract_ik_info py_int nm fieldnames lines = inr t ->
  exists pos rest,
    fieldnames = Some (pos :: rest)
    /\ read_lines py_int process_spb.line_as_ik_info_field pos
         (set_dependent_iks (ik_info.init nm true)
            (Some (fresh_dependents (slice_3_to_last (pos :: rest)))))
         lines = inr t
    /\ fst (ik_info.validate t) = inr tt.
Proof.
  unfold process_spb.extract_ik_info, read_table.
  destruct fieldnames as [[|pos rest]|]; try discriminate.
  destruct (read_lines _ _ _ _ _) as [e|t0] eqn:Hr; [discriminate|].
  pose proof (validate_state t0) as Hs.
  destruct (ik_info.validate t0) as [[e|[]] t'] eqn:Hv; [discriminate|].
  cbn [snd] in Hs. subst t'. intros [= <-].
  exists pos, rest. split; [reflexivity|]. split; [exact Hr|].
  now rewrite Hv.
Qed.

(** X7: whatever [extract_ik_info] returns has passed [validate]: the
    declared totals of the table satisfy invariants 1-3 and so does every
    precinct column.  When the header has a precinct column (its slice from
    the fourth field to the last but one is not empty) the node has
    dependents and each of its six totals is the sum of that counter over
    them; when the header has none, the node has no dependents and its
    totals have been compared with nothing. *)
Theorem extract_ik_info_validated (py_int : string -> py_result Z)
    (nm : string) (fields : list string) (lines : list row) (t : IkInfo) :
  process_spb.extract_ik_info py_int nm (Some fields) lines = inr t ->
  fst (ik_info.validate t) = inr tt
  /\ consistent t
  /\ (invariant1 t /\ invariant2 t /\ invariant3 t)
  /\ (forall c, In c (children t) ->
                invariant1 c /\ invariant2 c /\ invariant3 c)
  /\ (slice_3_to_last fields <> [] ->
      children t <> []
      /\ forall f, getattr t f = sum_over f (children t))
  /\ (slice_3_to_last fields = [] -> children t = []).
Proof.
  intros H.
  destruct (extract_ik_info_steps _ _ _ _ _ H)
    as (pos & rest & [= ->] & Hr & Hv).
  pose proof (validate_ok_consistent t Hv) as Hc.
  remember (slice_3_to_last (pos :: rest)) as uiks eqn:Hu. clear Hu.
  destruct (fresh_dependents_spec uiks) as (_ & F2 & _ & _).
  destruct (read_lines_shape _ _ _ _ _ _ (fresh_dependents uiks) Hr eq_refl)
    as (_ & d & Hd & Hsh).
  apply same_shape_keys in Hsh.
  assert (Hch : children t = values d) by (unfold children; now rewrite Hd).
  assert (Hlen : List.length (children t)
                 = List.length (keys (fresh_dependents uiks))).
  { rewrite Hch, Hsh. unfold values, keys. now rewrite !length_map. }
  remember (keys (fresh_dependents uiks)) as ks eqn:Hks. clear Hks.
  pose proof (proj1 (consistent_unfold t) Hc) as [(H1 & H2 & H3 & H4) Hcs].
  split; [exact Hv|]. split; [exact Hc|]. split; [now repeat split|].
  split; [|split].
  - intros c Hin. apply Hcs in Hin.
    apply consistent_unfold in Hin as [(C1 & C2 & C3 & _) _]. now repeat split.
  - intros Hne.
    assert (Hne' : children t <> []).
    { intros E. rewrite E in Hlen. destruct ks as [|k ks]; [|discriminate].
      destruct uiks as [|u uiks]; [now destruct Hne|].
      apply (proj2 (F2 u)). now left. }
    split; [exact Hne'|]. now apply H4.
  - intros ->. destruct ks as [|k ks].
    + now destruct (children t).
    + exfalso. apply (proj1 (F2 k)). now left.
Qed.

(** X8: the shape of what [extract_ik_info] returns: a node of the given
    name over one leaf per precinct column (the columns from the fourth to
    the last but one), each leaf named after its column, in the order of
    the header when the column names are distinct. *)
Theorem extract_ik_info_shape (py_int : string -> py_result Z)
    (nm : string) (fields : list string) (lines : list row) (t : IkInfo) :
  process_spb.extract_ik_info py_int nm (Some fields) lines = inr t ->
  name t = nm
  /\ exists d,
       dependent_iks t = Some d
       /\ NoDup (keys d)
       /\ (forall k, In k (keys d) <-> In k (slice_3_to_last fields))
       /\ (NoDup (slice_3_to_last fields) -> keys d = slice_3_to_last fields)
       /\ Forall (fun kv => name (snd kv) = fst kv
                            /\ dependent_iks (snd kv) = None) d.
Proof.
  intros H.
  destruct (extract_ik_info_steps _ _ _ _ _ H) as (pos & rest & [= ->] & Hr & _).
  set (uiks := slice_3_to_last (pos :: rest)) in *.
  destruct (fresh_dependents_spec uiks) as (F1 & F2 & F3 & F4).
  destruct (read_lines_shape _ _ _ _ _ _ (fresh_dependents uiks) Hr eq_refl)
    as (Hn & d & Hd & Hsh).
  split; [exact Hn|]. exists d. split; [exact Hd|].
  rewrite <- (same_shape_keys _ _ Hsh).
  split; [exact F1|]. split; [exact F2|]. split; [exact F4|].
  clear -F3 Hsh. unfold same_shape in Hsh.
  induction Hsh as [|x y l l' (Hk & Hnm & Hdp) _ IH]; [constructor|].
  inversion F3 as [|? ? Hx Hl]; subst. constructor; [|now apply IH].
  unfold leaf_named in Hx. rewrite Hx in Hnm, Hdp. cbn in Hnm, Hdp.
  split; congruence.
Qed.

Lemma extract_ik_info_validated_witness :
  fst (ik_info.validate tik) = inr tt
  /\ consistent tik
  /\ (invariant1 tik /\ invariant2 tik /\ invariant3 tik)
  /\ (forall c, In c (children tik) ->
                invariant1 c /\ invariant2 c /\ invariant3 c)
  /\ (slice_3_to_last tik_header <> [] ->
      children tik <> []
      /\ forall f, getattr tik f = sum_over f (children tik))
  /\ (slice_3_to_last tik_header = [] -> children tik = []).
Proof.
  apply (extract_ik_info_validated decimal "TIK" tik_header tik_rows).
  reflexivity.
Defined.

Lemma extract_ik_info_shape_witness :
  name tik = "TIK"
  /\ exists d,
       dependent_iks tik = Some d
       /\ NoDup (keys d)
       /\ (forall k, In k (keys d) <-> In k (slice_3_to_last tik_header))
       /\ (NoDup (slice_3_to_last tik_header) ->
           keys d = slice_3_to_last tik_header)
       /\ Forall (fun kv => name (snd kv) = fst kv
                            /\ dependent_iks (snd kv) = None) d.
Proof.
  apply (extract_ik_info_shape decimal "TIK" tik_header tik_rows).
  reflexivity.
Defined.

Lemma find_over_app {A : Type} (p : A -> bool) (l l' : list A) :
  find p (l ++ l') = match find p l with
                     | Some x => Some x
                     | None => find p l'
                     end.
Proof.
  induction l as [|x l IH]; simpl; [reflexivity|]. now destruct (p x).
Qed.

Section ReadLinesValues.
Variable py_int : string -> py_result Z.
Variable table : list (string * field).
Variable pos : string.

Lemma set_dependents_values (line : row) (g : field)
    (d d' : list (string * IkInfo)) :
  set_dependents py_int line g d = inr d' ->
  Forall2 (fun kv kv' =>
             fst kv' = fst kv
             /\ exists v, cell_value py_int line (fst kv) v
                          /\ snd kv' = setattr (snd kv) g v) d d'.
Proof.
  revert d'. induction d as [|[k c] d IH]; intros d'; cbn [set_dependents].
  - intros [= <-]. constructor.
  - unfold row_get. destruct (getitem line k) as [cl|] eqn:Hg; [|discriminate].
    destruct (int_cell py_int cl) as [e|v] eqn:Hi; [discriminate|].
    destruct (set_dependents py_int line g d) as [e|rest]; [discriminate|].
    intros [= <-]. constructor; [|now apply IH].
    cbn [fst snd]. split; [reflexivity|]. exists v. split; [|reflexivity].
    exists cl. now split.
Qed.

Lemma read_line_cases (t t' : IkInfo) (line : row)
    (d : list (string * IkInfo)) :
  read_line py_int table pos t line = inr t' ->
  dependent_iks t = Some d ->
  match row_field table pos line with
  | None => t' = t
  | Some g =>
      exists total d',
        cell_value py_int line total_column total
        /\ set_dependents py_int line g d = inr d'
        /\ t' = set_dependent_iks (setattr t g total) (Some d')
  end.
Proof.
  unfold read_line, row_field, row_get. intros H Hd.
  destruct (getitem line pos) as [[[|a s]|]|]; try discriminate;
    try (now injection H as <-).
  destruct (getitem table (String a s)) as [g|]; [|discriminate].
  destruct (getitem line total_column) as [c|] eqn:Hc; [|discriminate].
  destruct (int_cell py_int c) as [e|total] eqn:Hi; [discriminate|].
  rewrite dependent_iks_setattr, Hd in H.
  destruct (set_dependents py_int line g d) as [e|d'] eqn:Hs; [discriminate|].
  injection H as <-. exists total, d'. split; [|split; reflexivity].
  exists c. now split.
Qed.

(** What the rows leave in a node: for each attribute, the declared total
    and the precinct cells of the last row for it, or what was there before
    when no row is for it. *)
Lemma read_lines_values (lines : list row) (t0 t : IkInfo)
    (d0 : list (string * IkInfo)) :
  read_lines py_int table pos t0 lines = inr t ->
  dependent_iks t0 = Some d0 ->
  exists d,
    dependent_iks t = Some d
    /\ forall f,
         match last_row_for table pos f lines with
         | None =>
             getattr t f = getattr t0 f
             /\ Forall2 (fun kv0 kv =>
                           fst kv = fst kv0
                           /\ getattr (snd kv) f = getattr (snd kv0) f) d0 d
         | Some line =>
             cell_value py_int line total_column (getattr t f)
             /\ Forall (fun kv =>
                          cell_value py_int line (fst kv) (getattr (snd kv) f))
                  d
         end.
Proof.
  revert t0 d0. induction lines as [|line lines IH]; intros t0 d0;
    cbn [read_lines].
  - intros [= <-] Hd. exists d0. split; [exact Hd|]. intros f.
    cbn. split; [reflexivity|]. clear. induction d0; constructor; auto.
  - destruct (read_line py_int table pos t0 line) as [e|t1] eqn:H1;
      [discriminate|].
    intros Hrest Hd0.
    pose proof (read_line_cases _ _ _ _ H1 Hd0) as Hcase.
    assert (Hd1 : exists d1, dependent_iks t1 = Some d1).
    { destruct (row_field table pos line).
      - destruct Hcase as (total & d' & _ & _ & ->). now exists d'.
      - subst t1. now exists d0. }
    destruct Hd1 as (d1 & Hd1).
    destruct (IH t1 d1 Hrest Hd1) as (d & Hd & Hval).
    exists d. split; [exact Hd|]. intros f. specialize (Hval f).
    unfold last_row_for in *. cbn [rev]. rewrite find_over_app.
    destruct (find (row_is_for table pos f) (rev lines)) as [l|];
      [exact Hval|].
    destruct Hval as (Ht & Hch). cbn [find]. unfold row_is_for at 1.
    destruct (row_field table pos line) as [g|].
    + destruct Hcase as (total & d' & Htot & Hset & ->).
      cbn [dependent_iks set_dependent_iks] in Hd1. injection Hd1 as <-.
      pose proof (set_dependents_values _ _ _ _ Hset) as Hvals.
      assert (Hg : getattr (set_dependent_iks (setattr t0 g total) (Some d')) f
                   = if field_eqb g f then total else getattr t0 f).
      { rewrite <- getattr_setattr. now destruct f. }
      rewrite Hg in Ht.
      destruct (field_eqb g f) eqn:Hgf.
      * assert (g = f) as -> by (destruct g, f; try discriminate; reflexivity).
        split; [now rewrite Ht|].
        clear -Hvals Hch. revert d Hch.
        induction Hvals as [|x y l l' (Hk & v & Hv & Hy) _ IHv];
          intros d Hch; inversion Hch as [|? z ? l2 (Hkz & Hz) Hrest]; subst;
          constructor; [|now apply IHv].
        rewrite Hkz, Hk, Hz, Hy, getattr_setattr.
        replace (field_eqb f f) with true by now destruct f. exact Hv.
      * split; [exact Ht|].
        clear -Hvals Hch Hgf. revert d Hch.
        induction Hvals as [|x y l l' (Hk & v & Hv & Hy) _ IHv];
          intros d Hch; inversion Hch as [|? z ? l2 (Hkz & Hz) Hrest]; subst;
          constructor; [|now apply IHv].
        split; [congruence|]. now rewrite Hz, Hy, getattr_setattr, Hgf.
    + subst t1. rewrite Hd0 in Hd1. injection Hd1 as <-. now split.
Qed.
End ReadLinesValues.

(** X9: what [extract_ik_info] reads.  For each of the six attributes, the
    counter of the returned node is the integer in the column of totals of
    the last row that bears the attribute's line number, and the counter of
    each precinct is the integer of its own column in that row; an
    attribute no row is for stays zero everywhere. *)
Theorem extract_ik_info_values (py_int : string -> py_result Z)
    (nm pos : string) (rest : list string) (lines : list row) (t : IkInfo) :
  process_spb.extract_ik_info py_int nm (Some (pos :: rest)) lines = inr t ->
  forall f,
    match last_row_for process_spb.line_as_ik_info_field pos f lines with
    | None =>
        getattr t f = 0
        /\ forall c, In c (children t) -> getattr c f = 0
    | Some line =>
        cell_value py_int line total_column (getattr t f)
        /\ forall k c, In (k, c) (dict_of t) ->
                       cell_value py_int line k (getattr c f)
    end.
Proof.
  intros H f.
  destruct (extract_ik_info_steps _ _ _ _ _ H) as (pos' & rest' & [= <- <-] & Hr & _).
  set (uiks := slice_3_to_last (pos :: rest)) in *.
  destruct (read_lines_values _ _ _ _ _ _ (fresh_dependents uiks) Hr eq_refl)
    as (d & Hd & Hval).
  specialize (Hval f). unfold children, dict_of. rewrite Hd.
  destruct (last_row_for _ pos f lines) as [line|].
  - destruct Hval as (Ht & Hch). split; [exact Ht|].
    intros k c Hin. rewrite Forall_forall in Hch. apply (Hch (k, c) Hin).
  - destruct Hval as (Ht & Hch). split.
    + rewrite Ht. now destruct f.
    + destruct (fresh_dependents_spec uiks) as (_ & _ & Hleaf & _).
      intros c Hc. apply in_map_iff in Hc as ([k c'] & Hk & Hin).
      cbn in Hk. subst c'.
      clear -Hleaf Hch Hin. induction Hch as [|x y l l' (_ & Hy) _ IH];
        [destruct Hin|].
      inversion Hleaf as [|? ? Hx Hl]; subst. destruct Hin as [->|Hin].
      * cbn [snd] in Hy. rewrite Hy. unfold leaf_named in Hx. rewrite Hx.
        now destruct f.
      * now apply IH.
Qed.

Lemma extract_ik_info_values_witness :
  cell_value decimal (tik_row "5" "yes" "152" "40" "100" "12") total_column
    (getattr tik f_yes_votes)
  /\ forall k c, In (k, c) (dict_of tik) ->
       cell_value decimal (tik_row "5" "yes" "152" "40" "100" "12") k
         (getattr c f_yes_votes).
Proof.
  apply (extract_ik_info_values decimal "TIK" "N"
           ["title"; total_column; "UIK 1"; "UIK 2"; "UIK 3"; ""] tik_rows tik
           eq_refl f_yes_votes).
Defined.

Lemma read_lines_skip_blank (py_int : string -> py_result Z)
    (table : list (string * field)) (pos : string) (lines : list row)
    (t : IkInfo) :
  read_lines py_int table pos t
    (filter (fun line => negb (blank_row pos line)) lines)
  = read_lines py_int table pos t lines.
Proof.
  revert t. induction lines as [|line lines IH]; intros t; [reflexivity|].
  cbn [filter read_lines]. unfold blank_row at 1.
  destruct (getitem line pos) as [c|] eqn:Hg.
  - destruct (cell_falsy c) eqn:Hc; cbn [negb].
    + assert (Hl : read_line py_int table pos t line = inr t).
      { unfold read_line, row_get. rewrite Hg.
        destruct c as [[|a s]|]; try reflexivity. discriminate Hc. }
      now rewrite Hl, IH.
    + cbn [read_lines]. destruct (read_line py_int table pos t line);
        [reflexivity|apply IH].
  - cbn [negb read_lines]. destruct (read_line py_int table pos t line);
      [reflexivity|apply IH].
Qed.

(** X10: rows whose line number is empty (or missing from a short line)
    are skipped: dropping them from the table changes neither the node
    returned nor the exception raised. *)
Theorem extract_ik_info_skips_blank (py_int : string -> py_result Z)
    (nm pos : string) (rest : list string) (lines : list row) :
  process_spb.extract_ik_info py_int nm (Some (pos :: rest))
    (filter (fun line => negb (blank_row pos line)) lines)
  = process_spb.extract_ik_info py_int nm (Some (pos :: rest)) lines.
Proof.
  unfold process_spb.extract_ik_info, read_table.
  now rewrite read_lines_skip_blank.
Qed.

Lemma read_lines_fails (py_int : string -> py_result Z)
    (table : list (string * field)) (pos : string) (lines : list row)
    (bad : row) :
  In bad lines ->
  (forall t, exists e, read_line py_int table pos t bad = inl e) ->
  forall t, exists e, read_lines py_int table pos t lines = inl e.
Proof.
  intros Hin Hbad. induction lines as [|line lines IH]; [destruct Hin|].
  intros t. cbn [read_lines]. destruct Hin as [->|Hin].
  - destruct (Hbad t) as (e & ->). now exists e.
  - destruct (read_line py_int table pos t line) as [e|t'];
      [now exists e|now apply IH].
Qed.

(** X11: when the table cannot be read.  Without a header (an empty file)
    the call raises [TypeError], with an empty header [IndexError]; a row
    whose line number is not one of the six known, a row without the column
    of totals, and a row whose total does not read as an integer each make
    the whole call raise: no node is returned. *)
Theorem extract_ik_info_rejects (py_int : string -> py_result Z)
    (nm : string) (lines : list row) :
  process_spb.extract_ik_info py_int nm None lines
  = inl (Raised (TypeError "'NoneType' object is not subscriptable"))
  /\ process_spb.extract_ik_info py_int nm (Some []) lines
     = inl (IndexError "list index out of range")
  /\ forall pos rest bad number,
       In bad lines ->
       getitem bad pos = Some (Some number) ->
       number <> "" ->
       (getitem process_spb.line_as_ik_info_field number = None
        \/ getitem bad total_column = None
        \/ (exists c e, getitem bad total_column = Some c
                        /\ int_cell py_int c = inl e)) ->
       exists e,
         process_spb.extract_ik_info py_int nm (Some (pos :: rest)) lines
         = inl e.
Proof.
  split; [reflexivity|]. split; [reflexivity|].
  intros pos rest bad number Hin Hnum Hne Hbad.
  unfold process_spb.extract_ik_info, read_table.
  destruct (read_lines_fails py_int process_spb.line_as_ik_info_field pos
              lines bad Hin) with
    (t := set_dependent_iks (ik_info.init nm true)
            (Some (fresh_dependents (slice_3_to_last (pos :: rest)))))
    as (e & ->); [|now exists e].
  intros t. unfold read_line, row_get. rewrite Hnum.
  destruct number as [|a s]; [now destruct Hne|].
  destruct (getitem process_spb.line_as_ik_info_field (String a s)) as [f|];
    [|eexists; reflexivity].
  destruct Hbad as [Hb|[Hb|(c & e & Hb & Hi)]]; [discriminate| |];
    rewrite Hb; [eexists; reflexivity|]. rewrite Hi. eexists; reflexivity.
Qed.

Lemma extract_ik_info_rejects_witness :
  exists e,
    process_spb.extract_ik_info decimal "TIK" (Some tik_header)
      (tik_rows ++ [tik_row "7" "other" "1" "1" "0" "0"])
    = inl e.
Proof.
  apply (proj2 (proj2 (extract_ik_info_rejects decimal "TIK"
                         (tik_rows ++ [tik_row "7" "other" "1" "1" "0" "0"])))
           "N" ["title"; total_column; "UIK 1"; "UIK 2"; "UIK 3"; ""]
           (tik_row "7" "other" "1" "1" "0" "0") "7").
  - apply in_or_app. right. now left.
  - reflexivity.
  - discriminate.
  - left. reflexivity.
Defined.

(** X12: the copy of [extract_ik_info] in [process_tik.py] (a static
    method that fills the dictionary through [__init_dict] and passes the
    file name to [validate]) returns the same node or raises the same
    exception as the function of [process_spb.py], on every table. *)
Theorem extract_ik_info_copies_agree (py_int : string -> py_result Z)
    (nm data_file : string) (fieldnames : option (list string))
    (lines : list row) :
  process_tik_adapter.extract_ik_info py_int nm data_file fieldnames lines
  = process_spb.extract_ik_info py_int nm fieldnames lines.
Proof.
  unfold process_tik_adapter.extract_ik_info, process_spb.extract_ik_info.
  assert (Hr : read_table py_int line_as_ui_info_field (process_tik.init nm)
                 fieldnames lines
               = read_table py_int process_spb.line_as_ik_info_field
                   (ik_info.init nm true) fieldnames lines).
  { unfold read_table. destruct fieldnames as [[|pos rest]|]; reflexivity. }
  rewrite Hr. destruct (read_table _ _ _ _ _) as [e|t]; [reflexivity|].
  now rewrite process_tik_validate.
Qed.

(** ** The script *)

Lemma extract_ik_info_name (py_int : string -> py_result Z) (nm : string)
    (fieldnames : option (list string)) (lines : list row) (t : IkInfo) :
  process_spb.extract_ik_info py_int nm fieldnames lines = inr t ->
  name t = nm.
Proof.
  intros H.
  destruct (extract_ik_info_steps _ _ _ _ _ H) as (pos & rest & _ & Hr & _).
  now destruct (read_lines_shape _ _ _ _ _ _ _ Hr eq_refl) as (Hn & _).
Qed.

Section ScriptFacts.
Variable py_int : string -> py_result Z.
Variable path_join : string -> string -> string.
Variable read_csv : string -> option (list string) * list row.

Lemma attach_tiks_spec (numbers : list Z) (p q : IkInfo) :
  process_spb_main.attach_tiks py_int path_join read_csv p numbers = inr q ->
  exists tiks,
    q = fold_left ik_info.add_ik_info tiks p
    /\ map name tiks = map process_spb_main.tik_name numbers
    /\ Forall (fun c => fst (ik_info.validate c) = inr tt) tiks.
Proof.
  revert p. induction numbers as [|i numbers IH]; intros p;
    cbn [process_spb_main.attach_tiks].
  - intros [= <-]. exists []. repeat split. constructor.
  - destruct (process_spb.extract_ik_info _ _ _ _) as [e|tik_info] eqn:He;
      [discriminate|].
    intros H. destruct (IH _ H) as (tiks & -> & Hn & Hv).
    exists (tik_info :: tiks). split; [reflexivity|]. split.
    + cbn [map]. now rewrite Hn, (extract_ik_info_name _ _ _ _ _ He).
    + constructor; [|exact Hv].
      destruct (extract_ik_info_steps _ _ _ _ _ He) as (_ & _ & _ & _ & Hok).
      exact Hok.
Qed.
End ScriptFacts.

Lemma tik_names_distinct :
  NoDup (map process_spb_main.tik_name process_spb_main.tik_numbers).
Proof.
  assert (H : nodup string_dec
                (map process_spb_main.tik_name process_spb_main.tik_numbers)
              = map process_spb_main.tik_name process_spb_main.tik_numbers)
    by (vm_compute; reflexivity).
  rewrite <- H. apply NoDup_nodup.
Qed.

(** X13: the [validate] that ends the loop of the script cannot raise.
    Once the thirty tables have each been extracted (and so validated), the
    region built from them by [add_ik_info] holds the thirty commissions
    under their names, in order, its counters are the sums of theirs, and
    [validate] accepts it: an exception of the script up to there is an
    exception of one of the extractions. *)
Theorem script_validate_cannot_fail (py_int : string -> py_result Z)
    (path_join : string -> string -> string)
    (read_csv : string -> option (list string) * list row) :
  (forall spb,
     process_spb_main.attach_tiks py_int path_join read_csv
       (ik_info.init "Saint-Petersburg" false) process_spb_main.tik_numbers
     = inr spb ->
     process_spb_main.build py_int path_join read_csv = inr spb
     /\ ik_info.get_number_of_iks spb = process_spb_main.number_of_tiks
     /\ map name (children spb)
        = map process_spb_main.tik_name process_spb_main.tik_numbers
     /\ forall f, getattr spb f = sum_over f (children spb))
  /\ (forall e,
        process_spb_main.build py_int path_join read_csv = inl e ->
        process_spb_main.attach_tiks py_int path_join read_csv
          (ik_info.init "Saint-Petersburg" false) process_spb_main.tik_numbers
        = inl e).
Proof.
  assert (Hmain : forall spb,
     process_spb_main.attach_tiks py_int path_join read_csv
       (ik_info.init "Saint-Petersburg" false) process_spb_main.tik_numbers
     = inr spb ->
     fst (ik_info.validate spb) = inr tt
     /\ children spb <> []
     /\ map name (children spb)
        = map process_spb_main.tik_name process_spb_main.tik_numbers).
  { intros spb H.
    destruct (attach_tiks_spec _ _ _ _ _ _ H) as (tiks & -> & Hn & Hv).
    assert (Hnd : NoDup (map name tiks))
      by (rewrite Hn; apply tik_names_distinct).
    split; [now apply fold_add_validates|].
    destruct (fold_add_ik_info tiks [] (ik_info.init "Saint-Petersburg" false)
                eq_refl Hnd) as [Hd _].
    cbn [app] in Hd. rewrite children_dict_of, Hd, values_entries.
    split; [|exact Hn]. intros ->. discriminate Hn. }
  split.
  - intros spb H. destruct (Hmain spb H) as (Hok & Hne & Hnames).
    split; [|split; [|split; [exact Hnames|]]].
    + unfold process_spb_main.build. rewrite H.
      pose proof (validate_state spb) as Hs.
      destruct (ik_info.validate spb) as [[e|[]] spb']; [discriminate|].
      cbn [snd] in Hs. now subst.
    + rewrite number_of_iks_dict. unfold dict_of, children, values in *.
      destruct (dependent_iks spb) as [d|]; [|now destruct Hne].
      apply (f_equal (@List.length _)) in Hnames.
      rewrite !length_map in Hnames. rewrite Hnames. reflexivity.
    + intros f. now apply validate_ok_sums.
  - intros e. unfold process_spb_main.build.
    destruct (process_spb_main.attach_tiks _ _ _ _ _) as [e'|spb] eqn:H;
      [now intros [= ->]|].
    destruct (Hmain spb eq_refl) as (Hok & _).
    destruct (ik_info.validate spb) as [[e'|[]] spb']; discriminate.
Qed.

Lemma script_validate_cannot_fail_witness :
  process_spb_main.build decimal sample_join same_table = inr sample_region
  /\ ik_info.get_number_of_iks sample_region
     = process_spb_main.number_of_tiks
  /\ map name (children sample_region)
     = map process_spb_main.tik_name process_spb_main.tik_numbers
  /\ forall f, getattr sample_region f = sum_over f (children sample_region).
Proof.
  apply (proj1 (script_validate_cannot_fail decimal sample_join same_table)
           sample_region).
  vm_compute. reflexivity.
Defined.

(** ** What the plots are given *)

Lemma plot_results_loop_counts (all_iks : list IkInfo)
    (t y n s t' y' n' s' : list float) (k k' : Z) :
  process_spb_plots.plot_results_loop all_iks (t, y, n, s, k)
  = inr (t', y', n', s', k') ->
  (List.length t' = List.length t + List.length all_iks)%nat
  /\ (List.length y' = List.length y + List.length all_iks)%nat
  /\ (List.length n' = List.length n + List.length all_iks)%nat
  /\ (List.length s' = List.length s + List.length all_iks)%nat
  /\ k' = k + Z.of_nat (List.length all_iks).
Proof.
  revert t y n s k. induction all_iks as [|ik rest IH]; intros t y n s k;
    cbn [process_spb_plots.plot_results_loop].
  - intros [= <- <- <- <- <-]. cbn [List.length]. lia.
  - destruct (ik_info.get_turnout_percent ik); [discriminate|].
    destruct (ik_info.get_yes_percent ik); [discriminate|].
    destruct (ik_info.get_no_percent ik); [discriminate|].
    destruct (ik_info.get_spoiled_percent ik); [discriminate|].
    intros H. destruct (IH _ _ _ _ _ H) as (H1 & H2 & H3 & H4 & H5).
    rewrite !length_app in *. cbn [List.length] in *. lia.
Qed.

Lemma percent_zero_den_fails (num : Z) : exists e, percent num 0 = inl e.
Proof. destruct (percent_zero_den num) as [H|H]; rewrite H; eauto. Qed.

Lemma plot_results_loop_fails (all_iks : list IkInfo)
    (acc : process_spb_plots.scatter) (u : IkInfo) :
  In u all_iks ->
  total_voters u = 0 \/ found_ballots u = 0 ->
  exists e, process_spb_plots.plot_results_loop all_iks acc = inl e.
Proof.
  intros Hin Hz. revert acc.
  induction all_iks as [|ik rest IH]; [destruct Hin|]. intros acc.
  cbn [process_spb_plots.plot_results_loop].
  destruct acc as [[[[t y] n] s] k].
  destruct (ik_info.get_turnout_percent ik) as [e|pt] eqn:Ht; [eauto|].
  destruct (ik_info.get_yes_percent ik) as [e|py] eqn:Hy; [eauto|].
  destruct (ik_info.get_no_percent ik) as [e|pn]; [eauto|].
  destruct (ik_info.get_spoiled_percent ik) as [e|ps]; [eauto|].
  destruct Hin as [->|Hin]; [exfalso|now apply IH].
  unfold ik_info.get_turnout_percent, ik_info.get_yes_percent in *.
  destruct Hz as [Hz|Hz]; rewrite Hz in *.
  - destruct (percent_zero_den_fails (given_ballots u)) as (e & He).
    congruence.
  - destruct (percent_zero_den_fails (yes_votes u)) as (e & He). congruence.
Qed.

Lemma percent_returns (num den : Z) :
  0 <= num -> 100 * num < 2 ^ 53 -> 0 < den < 2 ^ 53 ->
  exists v, percent num den = inr v.
Proof.
  intros H1 H2 H3. destruct (percent_nearest num den H1 H2 H3) as (v & _ & H & _).
  now exists v.
Qed.

Lemma plot_results_loop_returns (all_iks : list IkInfo)
    (acc : process_spb_plots.scatter) :
  Forall plottable all_iks ->
  exists r, process_spb_plots.plot_results_loop all_iks acc = inr r.
Proof.
  intros Hall. revert acc.
  induction Hall as [|ik rest (Hc & Ht & Hf) _ IH]; intros acc;
    cbn [process_spb_plots.plot_results_loop]; [eauto|].
  destruct acc as [[[[t y] n] s] k].
  pose proof (Hc f_total_voters) as Htv. pose proof (Hc f_given_ballots) as Hgb.
  pose proof (Hc f_found_ballots) as Hfb.
  pose proof (Hc f_spoiled_ballots) as Hsb.
  pose proof (Hc f_yes_votes) as Hyv. pose proof (Hc f_no_votes) as Hnv.
  cbn [getattr] in *.
  unfold ik_info.get_turnout_percent, ik_info.get_yes_percent,
    ik_info.get_no_percent, ik_info.get_spoiled_percent.
  destruct (percent_returns (given_ballots ik) (total_voters ik))
    as (v1 & ->); try lia.
  destruct (percent_returns (yes_votes ik) (found_ballots ik))
    as (v2 & ->); try lia.
  destruct (percent_returns (no_votes ik) (found_ballots ik))
    as (v3 & ->); try lia.
  destruct (percent_returns (spoiled_ballots ik) (found_ballots ik))
    as (v4 & ->); try lia.
  apply IH.
Qed.

(** X14: what [plot_results] hands to the scatter plots.  When the loop
    completes, the four lists of percentages have one entry per unit that
    [get_iks] yields and the count in the title is that number: the number
    of leaves for the recursive traversal, the number of direct children
    (or one, on a leaf) otherwise. *)
Theorem plot_results_counts (ik : IkInfo) (recursive : bool)
    (t y n s : list float) (number_of_iks : Z) :
  process_spb_plots.plot_results ik recursive
  = inr (t, y, n, s, number_of_iks) ->
  List.length t = List.length (ik_info.get_iks recursive ik)
  /\ List.length y = List.length (ik_info.get_iks recursive ik)
  /\ List.length n = List.length (ik_info.get_iks recursive ik)
  /\ List.length s = List.length (ik_info.get_iks recursive ik)
  /\ number_of_iks = Z.of_nat (List.length (ik_info.get_iks recursive ik))
  /\ (recursive = true -> number_of_iks = Z.of_nat (count_leaves ik)).
Proof.
  unfold process_spb_plots.plot_results. intros H.
  destruct (plot_results_loop_counts _ _ _ _ _ _ _ _ _ _ _ H)
    as (H1 & H2 & H3 & H4 & H5).
  cbn [List.length] in *.
  repeat split; try lia.
  intros ->. rewrite <- get_iks_count_leaves. lia.
Qed.

Lemma plot_results_counts_witness :
  exists t y n s,
    process_spb_plots.plot_results tik true = inr (t, y, n, s, 3)
    /\ List.length t = 3%nat /\ List.length s = 3%nat.
Proof.
  assert (H : exists t y n s,
            process_spb_plots.plot_results tik true = inr (t, y, n, s, 3))
    by (vm_compute; repeat eexists).
  destruct H as (t & y & n & s & H). exists t, y, n, s.
  destruct (plot_results_counts tik true t y n s 3 H) as (Ht & _ & _ & Hs & _).
  repeat split; assumption.
Defined.

(** X15: when [plot_results] can draw.  It raises as soon as one of the
    units it visits has no registered voter or no ballot found, even in a
    tree that [validate] accepts; it completes when every unit visited has
    both positive and counters below [2^53 / 100]. *)
Theorem plot_results_needs_voters (ik : IkInfo) (recursive : bool) :
  (forall u,
     In u (ik_info.get_iks recursive ik) ->
     total_voters u = 0 \/ found_ballots u = 0 ->
     exists e, process_spb_plots.plot_results ik recursive = inl e)
  /\ (Forall plottable (ik_info.get_iks recursive ik) ->
      exists r, process_spb_plots.plot_results ik recursive = inr r).
Proof.
  split.
  - intros u Hin Hz. now apply (plot_results_loop_fails _ _ u).
  - apply plot_results_loop_returns.
Qed.

Lemma plot_results_needs_voters_witness :
  fst (ik_info.validate tik_with_empty) = inr tt
  /\ (exists e, process_spb_plots.plot_results tik_with_empty true = inl e)
  /\ exists r, process_spb_plots.plot_results uik1 true = inr r.
Proof.
  split; [reflexivity|]. split.
  - apply (proj1 (plot_results_needs_voters tik_with_empty true)
             empty_precinct).
    + right. now left.
    + now left.
  - apply (proj2 (plot_results_needs_voters uik1 true)).
    constructor; [|constructor]. split; [|split; reflexivity].
    intros f. destruct f; cbn; lia.
Defined.

(** ** Percentages stay on the axes *)

Lemma percent_normal_le_100 (num den m : positive) (e : Z) :
  (num <= den)%positive -> e <= 0 ->
  2 * Z.abs (Zpos m * Zpos den - 100 * Zpos num * 2 ^ (- e)) <= Zpos den ->
  Zpos m <= 100 * 2 ^ (- e).
Proof.
  intros Hle He Herr.
  assert (HT : 0 < 2 ^ (- e)) by (apply Z.pow_pos_nonneg; lia).
  set (T := 2 ^ (- e)) in *.
  assert (HB : Zpos num * T <= Zpos den * T)
    by (apply Z.mul_le_mono_nonneg_r; lia).
  assert (H2 : 2 * Zpos m * Zpos den <= (200 * T + 1) * Zpos den) by lia.
  apply Z.mul_le_mono_pos_r in H2; lia.
Qed.

Lemma percent_within (num den : Z) :
  0 <= num <= den -> 0 < den -> 100 * den < 2 ^ 53 ->
  returns_within (percent num den) 0 100.
Proof.
  intros Hn Hd Hr. unfold returns_within.
  destruct den as [|den|den]; try lia.
  destruct num as [|num|num]; try lia.
  - exists (S754_zero false), 0%Q. rewrite percent_of_zero by lia.
    repeat split; unfold Qle; cbn; lia.
  - destruct (percent_normal num den ltac:(lia) ltac:(lia))
      as (m & e & Hp & Hdm & He & Herr).
    exists (S754_finite false m e), (inject_Z (Zpos m) * 2 ^ e)%Q.
    split; [exact Hp|]. split; [reflexivity|].
    pose proof (percent_normal_le_100 num den m e ltac:(lia) ltac:(lia) Herr)
      as Hm.
    rewrite (two_power_neg e ltac:(lia)).
    assert (0 < 2 ^ (- e)) as Ht by (apply Z.pow_pos_nonneg; lia).
    destruct (2 ^ (- e)) as [|t|t] eqn:Et; try lia. cbn [Z.to_pos].
    split; unfold Qle, Qmult, inject_Z; cbn [Qnum Qden]; lia.
Qed.

(** X16: a node that satisfies invariants 1-3, with non-negative counters,
    registered voters and ballots found, and [100 * total_voters < 2^53],
    has its four percentages between 0 and 100: the floats computed never
    exceed [100.0], whatever the rounding. *)
Theorem percentages_within_axes (self : IkInfo) :
  invariant1 self -> invariant2 self -> invariant3 self ->
  (forall f, 0 <= getattr self f) ->
  0 < found_ballots self ->
  100 * total_voters self < 2 ^ 53 ->
  returns_within (ik_info.get_turnout_percent self) 0 100
  /\ returns_within (ik_info.get_yes_percent self) 0 100
  /\ returns_within (ik_info.get_no_percent self) 0 100
  /\ returns_within (ik_info.get_spoiled_percent self) 0 100.
Proof.
  unfold invariant1, invariant2, invariant3. intros H1 H2 H3 Hc Hf Ht.
  pose proof (Hc f_total_voters) as Htv. pose proof (Hc f_given_ballots) as Hgb.
  pose proof (Hc f_found_ballots) as Hfb.
  pose proof (Hc f_spoiled_ballots) as Hsb.
  pose proof (Hc f_yes_votes) as Hyv. pose proof (Hc f_no_votes) as Hnv.
  cbn [getattr] in *.
  unfold ik_info.get_turnout_percent, ik_info.get_yes_percent,
    ik_info.get_no_percent, ik_info.get_spoiled_percent.
  repeat split; apply percent_within; lia.
Qed.

Lemma percentages_within_axes_witness :
  returns_within (ik_info.get_turnout_percent tik) 0 100
  /\ returns_within (ik_info.get_yes_percent tik) 0 100
  /\ returns_within (ik_info.get_no_percent tik) 0 100
  /\ returns_within (ik_info.get_spoiled_percent tik) 0 100.
Proof.
  apply (percentages_within_axes tik).
  - reflexivity.
  - cbv. discriminate.
  - cbv. discriminate.
  - intros f. destruct f; cbv; discriminate.
  - reflexivity.
  - reflexivity.
Defined.

(** ** The bins of the distribution *)

Lemma finish_carry (s : bool) (e : Z) :
  -1000 <= e <= 900 ->
  finish s 9007199254740992 e = S754_finite s 4503599627370496 (e + 1).
Proof.
  intros He. unfold finish. rewrite shr_fexp_54 by (reflexivity || lia).
  cbn [shr_record_of_loc shr_1 shr_m orb].
  destruct (Z.leb_spec (e + 1) (emax - prec)); [reflexivity|].
  unfold emax, prec in *. lia.
Qed.

Lemma located_shr_1_record (r : shr_record) (q : positive) (N D : Z) :
  0 < D -> shr_m r = Zpos q ->
  located (shr_m r) (loc_of_shr_record r) N D ->
  located (shr_m (shr_1 r)) (loc_of_shr_record (shr_1 r)) N (2 * D)
  /\ 2 * shr_m (shr_1 r) <= Zpos q <= 2 * shr_m (shr_1 r) + 1.
Proof.
  intros HD. destruct r as [m [|] [|]]; cbn [shr_m]; intros ->;
    destruct q as [q|q|];
    cbn [shr_1 shr_m loc_of_shr_record located orb]; intros H; lia.
Qed.

Lemma three_times_shift (m : positive) :
  (6755399441055744 * m)%positive = Pos.iter xO (3 * m)%positive 51.
Proof.
  apply Pos2Z.inj. rewrite iter_xO, !Pos2Z.inj_mul.
  change (2 ^ 51) with 2251799813685248. lia.
Qed.

Lemma shr_by_52 (m3 : positive) :
  SpecFloat.iter_pos shr_1 52
    (Build_shr_record (Zpos (Pos.iter xO m3 51)) false false)
  = shr_1 (Build_shr_record (Zpos m3) false false).
Proof.
  rewrite iter_pos_iter. change 52%positive with (1 + 51)%positive.
  rewrite Pos.iter_add, <- (iter_pos_iter shr_1 51), shr_exact. reflexivity.
Qed.

Lemma shr_by_53 (m3 : positive) :
  SpecFloat.iter_pos shr_1 53
    (Build_shr_record (Zpos (Pos.iter xO m3 51)) false false)
  = shr_1 (shr_1 (Build_shr_record (Zpos m3) false false)).
Proof.
  rewrite iter_pos_iter. change 53%positive with (2 + 51)%positive.
  rewrite Pos.iter_add, <- (iter_pos_iter shr_1 51), shr_exact. reflexivity.
Qed.

Lemma finish_rounded (m' : Z) (l : location) (e : Z) (N D : Z) :
  0 < D -> -1000 <= e <= 800 ->
  4503599627370496 <= m' < 9007199254740992 ->
  located m' l N D ->
  exists mv c,
    0 <= c <= 1
    /\ finish false (round_nearest_even m' l) e = S754_finite false mv (e + c)
    /\ 2 * Z.abs (Zpos mv * 2 ^ c * D - N) <= D.
Proof.
  intros HD He Hm Hloc.
  destruct (round_nearest_even_ok m' l N D HD Hloc) as [Herr Hr].
  destruct (Z.eq_dec (round_nearest_even m' l) 9007199254740992) as [Hc|Hc].
  - exists 4503599627370496%positive, 1. split; [lia|].
    rewrite Hc, finish_carry by lia. split; [reflexivity|].
    rewrite Hc in Herr. change (2 ^ 1) with 2. lia.
  - destruct (digits_53 (round_nearest_even m' l) ltac:(simpl; lia))
      as (mv & Hmv & Hdv).
    exists mv, 0. split; [lia|]. rewrite Hmv, finish_normal by (assumption || lia).
    rewrite Z.add_0_r. split; [reflexivity|].
    rewrite <- Hmv. change (2 ^ 0) with 1. rewrite Z.mul_1_r. exact Herr.
Qed.

(** The product of [3.0] and a normal number. *)
Lemma SFmul_3 (m : positive) (e : Z) :
  digits m = 53 -> -105 <= e <= 0 ->
  exists mv j,
    1 <= j <= 3
    /\ SFmul prec emax (S754_finite false 6755399441055744 (-51))
         (S754_finite false m e)
       = S754_finite false mv (e + j)
    /\ 2 * Z.abs (Zpos mv * 2 ^ j - 3 * Zpos m) <= 2 ^ j.
Proof.
  intros Hd He.
  pose proof (digits_bounds m) as Hm. unfold digits in Hd. rewrite Hd in Hm.
  change (2 ^ (53 - 1)) with 4503599627370496 in Hm.
  change (2 ^ 53) with 9007199254740992 in Hm.
  assert (Hsf : SFmul prec emax (S754_finite false 6755399441055744 (-51))
                  (S754_finite false m e)
                = binary_round_aux prec emax false
                    (Zpos (Pos.iter xO (3 * m)%positive 51)) (-51 + e)
                    loc_Exact).
  { cbn [SFmul xorb]. now rewrite three_times_shift. }
  rewrite binary_round_aux_eq in Hsf. unfold shr_fexp in Hsf.
  cbn [Zdigits2 shr_record_of_loc] in Hsf. rewrite digits_iter_xO in Hsf.
  assert (Hloc0 : located (Zpos (3 * m)) loc_Exact (3 * Zpos m) 1)
    by (cbn [located]; lia).
  destruct (Z.ltb_spec (Zpos (3 * m)) 18014398509481984) as [Hlt|Hge].
  - (* one digit too many *)
    assert (Hd3 : Zpos (digits2_pos (3 * m)) = 54)
      by (apply digits_unique; simpl; lia).
    rewrite Hd3, fexp_normal in Hsf by lia.
    change (54 + 51 - 53) with 52 in Hsf. cbn [shr] in Hsf.
    rewrite shr_by_52 in Hsf.
    destruct (located_shr_1_record (Build_shr_record (Zpos (3 * m)) false false)
                (3 * m) (3 * Zpos m) 1 ltac:(lia) eq_refl Hloc0)
      as [Hloc1 Hh1].
    set (r1 := shr_1 (Build_shr_record (Zpos (3 * m)) false false)) in *.
    destruct (finish_rounded (shr_m r1) (loc_of_shr_record r1)
                (-51 + e + 52) (3 * Zpos m) (2 * 1)
                ltac:(lia) ltac:(lia) ltac:(lia) Hloc1)
      as (mv & c & Hc & Hfin & Herr).
    exists mv, (1 + c). split; [lia|]. rewrite Hsf, Hfin.
    split; [f_equal; lia|].
    rewrite Z.pow_add_r by lia. change (2 ^ 1) with 2.
    assert (c = 0 \/ c = 1) as [-> | ->] by lia;
      [change (2 ^ 0) with 1 in *|change (2 ^ 1) with 2 in *]; lia.
  - (* two digits too many *)
    assert (Hd3 : Zpos (digits2_pos (3 * m)) = 55)
      by (apply digits_unique; simpl; lia).
    rewrite Hd3, fexp_normal in Hsf by lia.
    change (55 + 51 - 53) with 53 in Hsf. cbn [shr] in Hsf.
    rewrite shr_by_53 in Hsf.
    destruct (located_shr_1_record (Build_shr_record (Zpos (3 * m)) false false)
                (3 * m) (3 * Zpos m) 1 ltac:(lia) eq_refl Hloc0)
      as [Hloc1 Hh1].
    set (r1 := shr_1 (Build_shr_record (Zpos (3 * m)) false false)) in *.
    assert (Hq1 : exists q1, shr_m r1 = Zpos q1).
    { destruct (shr_m r1) as [|q1|q1]; try lia. now exists q1. }
    destruct Hq1 as (q1 & Hq1).
    destruct (located_shr_1_record r1 q1 (3 * Zpos m) (2 * 1) ltac:(lia) Hq1
                Hloc1) as [Hloc2 Hh2].
    set (r2 := shr_1 r1) in *.
    destruct (finish_rounded (shr_m r2) (loc_of_shr_record r2)
                (-51 + e + 53) (3 * Zpos m) (2 * (2 * 1))
                ltac:(lia) ltac:(lia) ltac:(lia) Hloc2)
      as (mv & c & Hc & Hfin & Herr).
    exists mv, (2 + c). split; [lia|]. rewrite Hsf, Hfin.
    split; [f_equal; lia|].
    rewrite Z.pow_add_r by lia. change (2 ^ 2) with 4.
    assert (c = 0 \/ c = 1) as [-> | ->] by lia;
      [change (2 ^ 0) with 1 in *|change (2 ^ 1) with 2 in *]; lia.
Qed.

Lemma normal_percent_exponent (m : positive) (e : Z) :
  digits m = 53 -> e <= 0 -> Zpos m <= 100 * 2 ^ (- e) -> e <= -46.
Proof.
  intros Hd He Hm. pose proof (digits_bounds m) as Hb. unfold digits in Hd.
  rewrite Hd in Hb. change (2 ^ (53 - 1)) with 4503599627370496 in Hb.
  destruct (Z.le_gt_cases e (-46)) as [H|H]; [exact H|exfalso].
  assert (2 ^ (- e) <= 2 ^ 45) by (apply Z.pow_le_mono_r; lia).
  change (2 ^ 45) with 35184372088832 in *. lia.
Qed.

Lemma turnout_ind_bounds (num den : Z) :
  0 <= num <= den -> 0 < den -> 100 * den < 2 ^ 53 ->
  exists v i,
    percent num den = inr v
    /\ int_mul_float process_spb_plots.k v
       = inr (SFmul prec emax (S754_finite false 6755399441055744 (-51)) v)
    /\ int_of_float
         (SFmul prec emax (S754_finite false 6755399441055744 (-51)) v)
       = inr i
    /\ 0 <= i <= 300.
Proof.
  intros Hn Hd Hr.
  destruct den as [|den|den]; try lia.
  destruct num as [|num|num]; try lia.
  - exists (S754_zero false), 0. rewrite percent_of_zero by lia.
    repeat split; lia.
  - destruct (percent_normal num den ltac:(lia) ltac:(lia))
      as (m & e & Hp & Hdm & He & Herr).
    pose proof (percent_normal_le_100 num den m e ltac:(lia) ltac:(lia) Herr)
      as Hm.
    pose proof (normal_percent_exponent m e Hdm ltac:(lia) Hm) as He'.
    destruct (SFmul_3 m e Hdm He) as (mv & j & Hj & Hmul & Hround).
    exists (S754_finite false m e).
    destruct (e + j) as [|p|p] eqn:Hej; try lia.
    exists (Zpos mv / 2 ^ Zpos p).
    split; [exact Hp|]. split; [reflexivity|]. rewrite Hmul.
    split; [reflexivity|].
    assert (HT : 0 < 2 ^ Zpos p) by (apply Z.pow_pos_nonneg; lia).
    assert (Hsplit : 2 ^ (- e) = 2 ^ Zpos p * 2 ^ j).
    { rewrite <- Z.pow_add_r by lia. f_equal. lia. }
    rewrite Hsplit in Hm. set (T := 2 ^ Zpos p) in *.
    assert (Hmv : Zpos mv <= T * 300).
    { assert (j = 1 \/ j = 2 \/ j = 3) as [-> | [-> | ->]] by lia.
      - change (2 ^ 1) with 2 in *. lia.
      - change (2 ^ 2) with 4 in *. lia.
      - change (2 ^ 3) with 8 in *. lia. }
    split; [apply Z.div_pos; lia|].
    apply Z.div_le_upper_bound; lia.
Qed.

(** X17: the bin [plot_distribution] computes for a unit with at least
    one registered voter, no more ballots given than voters, and
    [100 * total_voters < 2^53] is an index of the array of [ticks] bins:
    neither the two roundings nor the truncation can take it below 0 or
    above 300. *)
Theorem turnout_ind_in_range (uik_info : IkInfo) :
  invariant3 uik_info ->
  0 <= given_ballots uik_info ->
  0 < total_voters uik_info ->
  100 * total_voters uik_info < 2 ^ 53 ->
  exists i,
    process_spb_plots.turnout_ind uik_info = inr i
    /\ 0 <= i < process_spb_plots.ticks.
Proof.
  unfold invariant3. intros H3 Hg Ht Hr.
  destruct (turnout_ind_bounds (given_ballots uik_info) (total_voters uik_info))
    as (v & i & Hp & Hmul & Hint & Hi); try lia.
  exists i. unfold process_spb_plots.turnout_ind, ik_info.get_turnout_percent.
  rewrite Hp, Hmul, Hint. split; [reflexivity|].
  unfold process_spb_plots.ticks, process_spb_plots.k. lia.
Qed.

Lemma turnout_ind_in_range_witness :
  exists i,
    process_spb_plots.turnout_ind uik1 = inr i
    /\ 0 <= i < process_spb_plots.ticks.
Proof.
  apply (turnout_ind_in_range uik1).
  - cbv. discriminate.
  - cbv. discriminate.
  - reflexivity.
  - reflexivity.
Defined.

(** ** Printing a node *)

Lemma float_ratio_cases (n d : Z) :
  0 <= n < 2 ^ 53 -> 0 <= d < 2 ^ 53 ->
  (d = 0 ->
   ik_info.float_ratio n d = inl (ZeroDivisionError "float division by zero"))
  /\ (0 < d -> exists x, ik_info.float_ratio n d = inr x).
Proof.
  intros Hn Hd. unfold ik_info.float_ratio.
  assert (Hfn : exists x, float_of_int n = inr x).
  { destruct n as [|n|n]; try lia; [now eexists|].
    destruct (float_of_int_normal n ltac:(lia)) as (m & H & _). eauto. }
  destruct Hfn as (x & ->). split.
  - intros ->. reflexivity.
  - intros Hpos. destruct d as [|d|d]; try lia.
    destruct (float_of_int_normal d ltac:(lia)) as (m & H & _).
    unfold float_div_int. rewrite H. cbn [is_zero]. eauto.
Qed.

(** X18: [to_string] needs both denominators.  On a node whose counters
    are non-negative and below [2^53], it raises [ZeroDivisionError] when
    [total_voters] or [found_ballots] is zero, as on a node just created or
    on an empty precinct that [validate] accepts, and returns a string
    otherwise. *)
Theorem to_string_needs_voters (format_percent : nat -> float -> string)
    (self : IkInfo) :
  (forall f, 0 <= getattr self f < 2 ^ 53) ->
  (total_voters self = 0 \/ found_ballots self = 0 ->
   ik_info.to_string format_percent self
   = inl (ZeroDivisionError "float division by zero"))
  /\ (0 < total_voters self -> 0 < found_ballots self ->
      exists s, ik_info.to_string format_percent self = inr s).
Proof.
  intros Hc.
  pose proof (Hc f_total_voters) as Htv. pose proof (Hc f_given_ballots) as Hgb.
  pose proof (Hc f_found_ballots) as Hfb.
  pose proof (Hc f_yes_votes) as Hyv. pose proof (Hc f_no_votes) as Hnv.
  cbn [getattr] in *.
  destruct (float_ratio_cases (given_ballots self) (total_voters self) Hgb Htv)
    as [Ht0 Ht1].
  destruct (float_ratio_cases (yes_votes self) (found_ballots self) Hyv Hfb)
    as [Hy0 Hy1].
  destruct (float_ratio_cases (no_votes self) (found_ballots self) Hnv Hfb)
    as [Hn0 Hn1].
  unfold ik_info.to_string. split.
  - intros [Hz|Hz].
    + now rewrite (Ht0 Hz).
    + destruct (Z.eq_dec (total_voters self) 0) as [Ht|Ht];
        [now rewrite (Ht0 Ht)|].
      destruct (Ht1 ltac:(lia)) as (x & ->). now rewrite (Hy0 Hz).
  - intros Ht Hf. destruct (Ht1 Ht) as (x & ->).
    destruct (Hy1 Hf) as (y & ->). destruct (Hn1 Hf) as (z & ->). eauto.
Qed.

Lemma to_string_needs_voters_witness :
  fst (ik_info.validate empty_precinct) = inr tt
  /\ ik_info.to_string (fun _ _ => "") empty_precinct
     = inl (ZeroDivisionError "float division by zero")
  /\ exists s, ik_info.to_string (fun _ _ => "") uik1 = inr s.
Proof.
  split; [reflexivity|].
  assert (H0 : forall f, 0 <= getattr empty_precinct f < 2 ^ 53)
    by (intros f; destruct f; cbn; lia).
  assert (H1 : forall f, 0 <= getattr uik1 f < 2 ^ 53)
    by (intros f; destruct f; cbn; lia).
  split.
  - apply (proj1 (to_string_needs_voters (fun _ _ => "") empty_precinct H0)).
    now left.
  - apply (proj2 (to_string_needs_voters (fun _ _ => "") uik1 H1));
      reflexivity.
Defined.
